(** * appDataViz: the data preparation of the enrollment dashboard

    A shallow embedding of [src/appDataViz.py].  The script loads a
    spreadsheet into a pandas DataFrame, keeps the Senior High School rows
    that report infrastructure, adds the ratio column [Learners per Infra]
    and derives four aggregate tables from it.

    Cells are typed as the data model has them.  [School Year], [Region],
    [Level] and [Sector] are strings, never blank.  [Total Enrollment] is an
    int64 column ([Z], sums wrap around).  [Total Infrastructure] is a
    float64 column of integer values in which a blank cell is NaN
    ([option Z], [None] for the blank).  Every ratio or mean is an IEEE
    binary64 value ([float], Rocq's primitive floats), so that a division by
    zero gives an infinity or NaN as it does in pandas.

    The first part holds the definitions, in the order of the script; the
    second part the properties. *)

From Stdlib Require Import ZArith List String Ascii Bool Lia.
From Stdlib Require Import Floats Uint63.
From Stdlib Require Import Sorted Permutation Mergesort Orders RelationClasses.
Import ListNotations.

Local Open Scope Z_scope.
Local Open Scope list_scope.

(** ** Data model *)

(** One row of the loaded sheet, with the six columns the script reads by
    name. *)
Record EnrollmentRecord := mkRecord {
  School_Year : string;
  Region : string;
  Level : string;
  Sector : string;
  Total_Enrollment : Z;
  Total_Infrastructure : option Z
}.

(** A row of [shs]: the original columns plus [Learners per Infra]. *)
Record CongestionRecord := mkCongestion {
  source : EnrollmentRecord;
  Learners_per_Infra : float
}.

(** ** int64 and float64 *)

Definition int64_min : Z := - 2 ^ 63.
Definition int64_max : Z := 2 ^ 63 - 1.

Definition int64 (z : Z) : Prop := int64_min <= z <= int64_max.

(** Two's complement wrap-around of an int64 result. *)
Definition wrap64 (z : Z) : Z := (z + 2 ^ 63) mod 2 ^ 64 - 2 ^ 63.

(** int64 -> float64 as the cast in [int64 / float64] does it: the nearest
    float64, ties to even.  For values of the int64 range. *)
Definition float_of_int (z : Z) : float :=
  match z with
  | Z0 => 0%float
  | Zpos _ => of_uint63 (Uint63.of_Z z)
  | Zneg _ =>
      if z =? int64_min then (-0x1p+63)%float
      else (- of_uint63 (Uint63.of_Z (- z)))%float
  end.

(** A [Total Infrastructure] cell as the float64 value pandas holds. *)
Definition infra_value (c : option Z) : float :=
  match c with
  | Some z => float_of_int z
  | None => nan
  end.

(** [Series.notna()] on one cell. *)
Definition notna (c : option Z) : bool :=
  match c with
  | Some _ => true
  | None => false
  end.

(** ** [compute_shs] *)

(** The boolean mask
    [(df["Level"] == "Senior High School") & df["Total Infrastructure"].notna()]. *)
Definition shs_mask (r : EnrollmentRecord) : bool :=
  (Level r =? "Senior High School")%string && notna (Total_Infrastructure r).

(** [shs["Total Enrollment"] / shs["Total Infrastructure"]] on one row. *)
Definition learners_per_infra (r : EnrollmentRecord) : float :=
  (float_of_int (Total_Enrollment r) / infra_value (Total_Infrastructure r))%float.

Definition compute_shs (df : list EnrollmentRecord) : list CongestionRecord :=
  map (fun r => mkCongestion r (learners_per_infra r)) (filter shs_mask df).

(** ** Grouping keys and sorting *)

(** [Series.unique()]: the distinct values in order of first appearance. *)
Fixpoint unique {A : Type} (eqb : A -> A -> bool) (l : list A) : list A :=
  match l with
  | [] => []
  | x :: t => x :: filter (fun y => negb (eqb y x)) (unique eqb t)
  end.

(** Python compares [str] values code point by code point, which on the
    UTF-8 bytes of a [string] is [String.leb]. *)
Module StrOrder <: TotalLeBool.
Definition t := string.
Definition leb := String.leb.
Definition leb_total := String.leb_total.
End StrOrder.

Module StrSort := Sort StrOrder.

(** [sorted(...)] on a list of strings. *)
Definition sorted (l : list string) : list string := StrSort.sort l.

(** Ascending order of strings, as a relation. *)
Definition le_str (a b : string) : Prop := String.leb a b = true.

(** A composite group key [(k1, k2, ...)], compared like a Python tuple. *)
Definition key := list string.

Fixpoint key_eqb (a b : key) : bool :=
  match a, b with
  | [], [] => true
  | x :: a', y :: b' => (x =? y)%string && key_eqb a' b'
  | _, _ => false
  end.

Fixpoint key_leb (a b : key) : bool :=
  match a, b with
  | [], _ => true
  | _ :: _, [] => false
  | x :: a', y :: b' =>
      match String.compare x y with
      | Lt => true
      | Eq => key_leb a' b'
      | Gt => false
      end
  end.

Lemma key_leb_total : forall a b, key_leb a b = true \/ key_leb b a = true.
Proof.
  induction a as [|x a IH]; intros [|y b]; simpl; auto.
  rewrite (String.compare_antisym y x).
  destruct (String.compare x y); simpl; auto.
Qed.

Module KeyOrder <: TotalLeBool.
Definition t := key.
Definition leb := key_leb.
Definition leb_total := key_leb_total.
End KeyOrder.

Module KeySort := Sort KeyOrder.

(** The group keys of [groupby(...)] (default [sort=True]): the distinct key
    values in ascending order. *)
Definition group_keys (l : list string) : list string :=
  sorted (unique String.eqb l).

Definition group_keys_multi (l : list key) : list key :=
  KeySort.sort (unique key_eqb l).

(** ** [get_year_order] *)

Definition get_year_order (df : list EnrollmentRecord) : list string :=
  sorted (unique String.eqb (map School_Year df)).

(** ** Aggregations *)

(** Sum of an int64 column: every addition wraps. *)
Definition sum_int64 (l : list Z) : Z :=
  fold_left (fun acc x => wrap64 (acc + x)) l 0.

Definition notnan (x : float) : bool := negb (is_nan x).

(** Sum of a float64 column, missing values skipped.  The values are added
    in row order; pandas' compensated summation can differ from it in the
    last bits of a finite result only. *)
Definition sum_float (l : list float) : float :=
  fold_left PrimFloat.add (filter notnan l) 0%float.

(** Mean of a float64 column, missing values skipped; NaN when no value is
    left. *)
Definition mean (l : list float) : float :=
  match filter notnan l with
  | [] => nan
  | vals =>
      (fold_left PrimFloat.add vals 0 / float_of_int (Z.of_nat (List.length vals)))%float
  end.

Definition year_of (r : CongestionRecord) : string := School_Year (source r).
Definition region_of (r : CongestionRecord) : string := Region (source r).
Definition sector_of (r : CongestionRecord) : string := Sector (source r).
Definition enrollment_of (r : CongestionRecord) : Z := Total_Enrollment (source r).
Definition infra_of (r : CongestionRecord) : float :=
  infra_value (Total_Infrastructure (source r)).

(** *** Section 1: [nat_shs] *)

Record NationalRow := mkNational {
  nat_School_Year : string;
  total_enrollment : Z;
  total_infra : float
}.

(** [shs.groupby("School Year").agg(total_enrollment=("Total Enrollment",
    "sum"), total_infra=("Total Infrastructure", "sum")).reset_index()] *)
Definition nat_shs (shs : list CongestionRecord) : list NationalRow :=
  map (fun y =>
         let g := filter (fun r => (year_of r =? y)%string) shs in
         mkNational y (sum_int64 (map enrollment_of g))
                      (sum_float (map infra_of g)))
      (group_keys (map year_of shs)).

(** *** Section 2: congestion trends in the focus regions *)

Definition focus_regions : list (string * string) :=
  [ ("NCR - National Capital Region", "NCR");
    ("Region IV-A - CALABARZON", "CALABARZON");
    ("Region III - Central Luzon", "Central Luzon");
    ("Region XI - Davao Region", "Davao");
    ("Region X - Northern Mindanao", "Northern Mindanao") ]%string.

(** [d.keys()] and [d.get(k)] of a dict literal. *)
Definition keys (d : list (string * string)) : list string := map fst d.

Fixpoint lookup (d : list (string * string)) (k : string) : option string :=
  match d with
  | [] => None
  | (k', v) :: d' => if (k' =? k)%string then Some v else lookup d' k
  end.

(** [Series.isin(values)] on one cell. *)
Definition isin (l : list string) (x : string) : bool :=
  existsb (String.eqb x) l.

(** A row of [shs_focus]: [Region Short] is missing where [map] finds no
    entry. *)
Record FocusRecord := mkFocus {
  focus_row : CongestionRecord;
  Region_Short : option string
}.

Definition shs_focus (shs : list CongestionRecord) : list FocusRecord :=
  map (fun r => mkFocus r (lookup focus_regions (region_of r)))
      (filter (fun r => isin (keys focus_regions) (region_of r)) shs).

(** The key of a focus row under [groupby(["School Year", "Region Short"])];
    a row whose key has a missing part belongs to no group. *)
Definition focus_key (r : FocusRecord) : option key :=
  match Region_Short r with
  | Some s => Some [year_of (focus_row r); s]
  | None => None
  end.

Definition has_key (k : key) (o : option key) : bool :=
  match o with
  | Some k' => key_eqb k' k
  | None => false
  end.

Fixpoint present {A : Type} (l : list (option A)) : list A :=
  match l with
  | [] => []
  | Some a :: t => a :: present t
  | None :: t => present t
  end.

(** [shs_focus.groupby(["School Year", "Region Short"])["Learners per
    Infra"].mean().reset_index()]: the key and the mean of each group. *)
Definition region_year_ratio (focus : list FocusRecord) : list (key * float) :=
  map (fun k =>
         (k, mean (map (fun r => Learners_per_Infra (focus_row r))
                       (filter (fun r => has_key k (focus_key r)) focus))))
      (group_keys_multi (present (map focus_key focus))).

(** *** Section 3: public and private enrollment in two years *)

Definition shs_sector (shs : list CongestionRecord) (compare_years : list string)
  : list CongestionRecord :=
  filter (fun r => isin (keys focus_regions) (region_of r)
                   && isin compare_years (year_of r)
                   && isin ["PUBLIC"; "PRIVATE"]%string (sector_of r)) shs.

Definition sector_key (r : CongestionRecord) : key :=
  [region_of r; year_of r; sector_of r].

Record SectorRow := mkSector {
  sector_group : key;
  sector_Total_Enrollment : Z;
  sector_Region_Short : option string
}.

(** [shs_sector.groupby(["Region", "School Year", "Sector"])["Total
    Enrollment"].sum().reset_index()], then the [Region Short] column. *)
Definition sector_summary (sector : list CongestionRecord) : list SectorRow :=
  map (fun k =>
         mkSector k
           (sum_int64 (map enrollment_of
                           (filter (fun r => key_eqb (sector_key r) k) sector)))
           (lookup focus_regions (hd ""%string k)))
      (group_keys_multi (map sector_key sector)).

(** *** Section 4: congestion ranking of one year *)

(** Insertion of one entry into a list that is in descending order of its
    values, after the entries that are strictly greater. *)
Fixpoint insert_desc (x : string * float) (l : list (string * float))
  : list (string * float) :=
  match l with
  | [] => [x]
  | y :: t =>
      if (snd x <? snd y)%float then y :: insert_desc x t else x :: y :: t
  end.

(** [Series.sort_values(ascending=False)] (default [na_position="last"]):
    the entries that are not NaN in descending order, then the NaN entries.
    numpy's default sort is not stable, so the order among equal values is
    not fixed by the script; here equal values keep their group order. *)
Definition sort_values_desc (s : list (string * float)) : list (string * float) :=
  fold_right insert_desc [] (filter (fun p => notnan (snd p)) s)
  ++ filter (fun p => is_nan (snd p)) s.

Definition shs_year (shs : list CongestionRecord) (selected_year : string)
  : list CongestionRecord :=
  filter (fun r => (year_of r =? selected_year)%string) shs.

(** The values [groupby("Region")["Learners per Infra"]] hands to [mean] for
    one region. *)
Definition region_values (rows : list CongestionRecord) (g : string) : list float :=
  map Learners_per_Infra (filter (fun r => (region_of r =? g)%string) rows).

(** [shs_year.groupby("Region")["Learners per Infra"].mean()], before the
    sort: one entry per region, by region name. *)
Definition region_means (rows : list CongestionRecord) : list (string * float) :=
  map (fun g => (g, mean (region_values rows g))) (group_keys (map region_of rows)).

Definition ranking (shs : list CongestionRecord) (selected_year : string)
  : list (string * float) :=
  sort_values_desc (region_means (shs_year shs selected_year)).

(** ** Loading *)

(** Where the sheet comes from: the uploaded file or the default path. *)
Inductive excel_source :=
| UploadedFile (name : string)
| FilePath (path : string).

(** Python exceptions the script can meet.  The first four are what
    [pd.read_excel] raises on a missing file, an unsupported format, a
    corrupt archive or anything else. *)
Inductive exn :=
| FileNotFoundError
| ValueError
| BadZipFile
| OtherException (class_name : string)
| IndexError
| StreamlitAPIException.

(** A DataFrame of enrollment rows: the header row as written in the sheet
    and the rows, each read through the six headers of [EnrollmentRecord]. *)
Record DataFrame := mkDataFrame {
  columns : list string;
  rows : list EnrollmentRecord
}.

(** [str.strip()]: white space removed at both ends. *)
Definition is_space (c : ascii) : bool :=
  let n := nat_of_ascii c in
  ((9 <=? n) && (n <=? 13) || (28 <=? n) && (n <=? 32))%nat.

Fixpoint lstrip (s : string) : string :=
  match s with
  | EmptyString => EmptyString
  | String c s' => if is_space c then lstrip s' else s
  end.

Fixpoint rstrip (s : string) : string :=
  match s with
  | EmptyString => EmptyString
  | String c s' =>
      match rstrip s' with
      | EmptyString => if is_space c then EmptyString else String c EmptyString
      | t => String c t
      end
  end.

Definition strip (s : string) : string := rstrip (lstrip s).

Section Script.

(** [pd.read_excel]: the parsed sheet, or the exception it raises. *)
Variable read_excel : excel_source -> exn + DataFrame.

(** [load_data]; the [st.cache_data] wrapper returns what the body
    returns and lets its exceptions through. *)
Definition load_data (uploaded_file : option string) (default_path : string)
  : exn + DataFrame :=
  match
    match uploaded_file with
    | Some f => read_excel (UploadedFile f)
    | None => read_excel (FilePath default_path)
    end
  with
  | inl e => inl e
  | inr df => inr (mkDataFrame (map strip (columns df)) (rows df))
  end.

(** *** The script as a sequence of Streamlit calls *)

(** The calls that show something computed; calls that only write fixed
    text are left out. *)
Inductive call :=
| sidebar_file_uploader
| st_error (message : string)
| sidebar_selectbox (label : string) (options : list string) (index : nat)
| sidebar_write (cols : list string)
| plot_fig_nat (data : list NationalRow)
| plot_fig_cong (data : list (key * float))
| st_selectbox (label : string) (options : list string) (index : nat)
| plot_fig_sector (data : list SectorRow) (category_order : list string)
| plot_fig_rank (data : list (string * float))
| st_dataframe (data : list CongestionRecord).

(** How a run of the script, or of a part of it, ends. *)
Inductive outcome (A : Type) :=
| Value (a : A)
| Stopped
| Raised (e : exn).

Arguments Value {A} a.
Arguments Stopped {A}.
Arguments Raised {A} e.

(** A computation that appends to the calls made so far. *)
Definition run (A : Type) := list call -> outcome A * list call.

Definition ret {A : Type} (a : A) : run A := fun tr => (Value a, tr).

Definition bind {A B : Type} (m : run A) (k : A -> run B) : run B :=
  fun tr =>
    match m tr with
    | (Value a, tr') => k a tr'
    | (Stopped, tr') => (Stopped, tr')
    | (Raised e, tr') => (Raised e, tr')
    end.

Definition emit (c : call) : run unit := fun tr => (Value tt, tr ++ [c]).

(** [st.stop()] *)
Definition st_stop {A : Type} : run A := fun tr => (Stopped, tr).

Definition raise {A : Type} (e : exn) : run A := fun tr => (Raised e, tr).

Notation "x <- m ;; k" := (bind m (fun x => k))
  (at level 61, m at next level, right associativity).
Notation "m ;;; k" := (bind m (fun _ => k))
  (at level 61, right associativity).

(** [l[i]] for [i >= 0] *)
Definition getitem (l : list string) (i : nat) : run string :=
  match nth_error l i with
  | Some x => ret x
  | None => raise IndexError
  end.

(** [l[-1]] *)
Definition getitem_last (l : list string) : run string :=
  match l with
  | [] => raise IndexError
  | _ => getitem l (List.length l - 1)
  end.

(** [l.index(x)] *)
Fixpoint index_from (l : list string) (x : string) (i : nat) : option nat :=
  match l with
  | [] => None
  | y :: t => if (y =? x)%string then Some i else index_from t x (S i)
  end.

Definition list_index (l : list string) (x : string) : run nat :=
  match index_from l x 0 with
  | Some i => ret i
  | None => raise ValueError
  end.

(** A select box shows [options] with [index] preselected and returns the
    option the user picked, the preselected one when they picked none. *)
Definition selectbox (widget : string -> list string -> nat -> call)
    (label : string) (options : list string) (index : nat) (picked : option nat)
  : run string :=
  emit (widget label options index) ;;;
  match nth_error options (match picked with Some i => i | None => index end) with
  | Some x => ret x
  | None => raise StreamlitAPIException
  end.

(** What the user did in the browser before this run of the script. *)
Record Session := mkSession {
  uploaded : option string;
  picked_ranking_year : option nat;
  picked_year_a : option nat;
  picked_year_b : option nat
}.

Definition default_path : string := "Education Dataset (1).xlsx".

Definition appDataViz (ss : Session) : run unit :=
  emit sidebar_file_uploader ;;;
  df <- match load_data (uploaded ss) default_path with
        | inr df => ret df
        | inl _ =>
            emit (st_error
              "Error loading dataset. Check file name/path or upload the file.") ;;;
            st_stop
        end ;;
  let years := get_year_order (rows df) in
  min_year <- getitem years 0 ;;
  max_year <- getitem_last years ;;
  i <- list_index years max_year ;;
  selected_year_for_ranking <-
    selectbox sidebar_selectbox "Select year for congestion ranking" years i
              (picked_ranking_year ss) ;;
  emit (sidebar_write (columns df)) ;;;
  let shs := compute_shs (rows df) in
  emit (plot_fig_nat (nat_shs shs)) ;;;
  emit (plot_fig_cong (region_year_ratio (shs_focus shs))) ;;;
  year_a <- selectbox st_selectbox "Select first school year" years 0
                      (picked_year_a ss) ;;
  year_b <- selectbox st_selectbox "Select second school year" years
                      (List.length years - 1) (picked_year_b ss) ;;
  let compare_years := [year_a; year_b] in
  emit (plot_fig_sector (sector_summary (shs_sector shs compare_years))
                        compare_years) ;;;
  emit (plot_fig_rank (ranking shs selected_year_for_ranking)) ;;;
  emit (st_dataframe shs).

End Script.

Arguments Value {A} a.
Arguments Stopped {A}.
Arguments Raised {A} e.

(** ** DataFrame objects and item assignment

    [compute_shs] assigns a column to a DataFrame.  To see which object that
    assignment changes, the function is run here on a heap of DataFrame
    objects, one pandas operation at a time. *)

Section Objects.

(** A DataFrame object: its enrollment rows and the float columns added to
    it by item assignment, by name and in insertion order. *)
Record frame := mkFrame {
  frame_rows : list EnrollmentRecord;
  frame_added : list (string * list float)
}.

(** The table as loaded: no column added yet. *)
Definition raw_frame (rs : list EnrollmentRecord) : frame := mkFrame rs [].

Definition base_columns : list string :=
  ["School Year"; "Region"; "Level"; "Sector"; "Total Enrollment";
   "Total Infrastructure"]%string.

(** [list(df.columns)] *)
Definition frame_columns (f : frame) : list string :=
  base_columns ++ map fst (frame_added f).

(** Objects in allocation order; a reference is a position. *)
Definition heap := list frame.
Definition ref := nat.

Definition op (A : Type) := heap -> option (A * heap).

Definition op_ret {A : Type} (a : A) : op A := fun h => Some (a, h).

Definition op_bind {A B : Type} (m : op A) (k : A -> op B) : op B :=
  fun h =>
    match m h with
    | Some (a, h') => k a h'
    | None => None
    end.

Notation "x <- m ;; k" := (op_bind m (fun x => k))
  (at level 61, m at next level, right associativity).

Definition deref (l : ref) : op frame :=
  fun h =>
    match nth_error h l with
    | Some f => Some (f, h)
    | None => None
    end.

Definition alloc (f : frame) : op ref :=
  fun h => Some (List.length h, h ++ [f]).

Fixpoint update (h : heap) (l : ref) (f : frame) : heap :=
  match h, l with
  | [], _ => []
  | _ :: t, O => f :: t
  | g :: t, S l' => g :: update t l' f
  end.

Definition assign (l : ref) (f : frame) : op unit :=
  fun h => Some (tt, update h l f).

(** The entries of [l] at the positions where [mask] is true. *)
Fixpoint select {A : Type} (mask : list bool) (l : list A) : list A :=
  match mask, l with
  | b :: m, x :: t => if b then x :: select m t else select m t
  | _, _ => []
  end.

(** [df[mask]]: a new object with the selected rows. *)
Definition getitem_mask (df : ref) (mask : list bool) : op ref :=
  f <- deref df ;;
  alloc (mkFrame (select mask (frame_rows f))
                 (map (fun c => (fst c, select mask (snd c))) (frame_added f))).

(** [df.copy()]: a new object with the same content. *)
Definition copy (df : ref) : op ref :=
  f <- deref df ;;
  alloc f.

(** The columns after [df[name] = vals]: the column of that name replaced
    where there is one, a new last column otherwise. *)
Fixpoint set_column (name : string) (vals : list float)
    (cs : list (string * list float)) : list (string * list float) :=
  match cs with
  | [] => [(name, vals)]
  | c :: t =>
      if (fst c =? name)%string then (name, vals) :: t
      else c :: set_column name vals t
  end.

Fixpoint lookup_column (name : string) (cs : list (string * list float))
  : option (list float) :=
  match cs with
  | [] => None
  | c :: t => if (fst c =? name)%string then Some (snd c) else lookup_column name t
  end.

(** [df[name] = vals]: changes the object [df] refers to. *)
Definition setitem (df : ref) (name : string) (vals : list float) : op unit :=
  f <- deref df ;;
  assign df (mkFrame (frame_rows f) (set_column name vals (frame_added f))).

(** [compute_shs] on objects: the mask, [df[mask].copy()], the item
    assignment on [shs], and [shs] is returned. *)
Definition compute_shs_object (df : ref) : op ref :=
  f <- deref df ;;
  selected <- getitem_mask df (map shs_mask (frame_rows f)) ;;
  shs <- copy selected ;;
  g <- deref shs ;;
  _ <- setitem shs "Learners per Infra" (map learners_per_infra (frame_rows g)) ;;
  op_ret shs.

(** The rows of a frame that carries [Learners per Infra], as
    [CongestionRecord]s. *)
Definition congestion_rows (f : frame) : option (list CongestionRecord) :=
  match lookup_column "Learners per Infra" (frame_added f) with
  | Some vals => Some (map (fun p => mkCongestion (fst p) (snd p))
                           (combine (frame_rows f) vals))
  | None => None
  end.

End Objects.

(** ** Vocabulary of the statements *)

(** The sum of a list of integers, without wrap-around. *)
Definition Zsum (l : list Z) : Z := fold_right Z.add 0 l.

(** The exact total of [f] over the rows of one group. *)
Definition group_total {R : Type} (key_of : R -> string) (f : R -> Z)
    (rows : list R) (k : string) : Z :=
  Zsum (map f (filter (fun r => (key_of r =? k)%string) rows)).

(** Descending order of two ranking entries: the second value is at most
    the first. *)
Definition ge_entry (p q : string * float) : Prop :=
  (snd q <=? snd p)%float = true.

(** The value of a ranking entry is a number. *)
Definition entry_notnan (p : string * float) : bool := notnan (snd p).

(** What [load_data] reads in a session. *)
Definition session_source (ss : Session) : excel_source :=
  match uploaded ss with
  | Some f => UploadedFile f
  | None => FilePath default_path
  end.


(** A value with sign bit [s]: a zero, a finite number or an infinity, not
    NaN. *)
Definition SF_signed (s : bool) (x : spec_float) : Prop :=
  match x with
  | S754_zero s' | S754_infinity s' | S754_finite s' _ _ => s' = s
  | S754_nan => False
  end.

(** A float64 value that is zero, positive or [+inf]. *)
Definition nonneg (x : float) : Prop := SF_signed false (Prim2SF x).

(** The counts of the data model: non-negative int64 values. *)
Definition data_model_row (r : EnrollmentRecord) : Prop :=
  0 <= Total_Enrollment r <= int64_max
  /\ match Total_Infrastructure r with
     | Some z => 0 <= z <= int64_max
     | None => True
     end.

(** The rows the script expects: non-negative int64 counts and, where an
    infrastructure count is given, a positive one. *)
Definition positive_infra_row (r : EnrollmentRecord) : Prop :=
  0 <= Total_Enrollment r <= int64_max
  /\ match Total_Infrastructure r with
     | Some z => 0 < z <= int64_max
     | None => True
     end.





(** The option a select box returns: the one at the position the user
    picked, at the preselected position when they picked none. *)
Definition selection (options : list string) (index : nat) (picked : option nat)
  : option string :=
  nth_error options (match picked with Some i => i | None => index end).

(** Ascending order of composite keys, as a relation. *)
Definition le_key (a b : key) : Prop := key_leb a b = true.

(** The rows of [shs] behind one point of the trend chart: those of school
    year [y] whose region has the short name [s]. *)
Definition in_trend_group (y s : string) (r : CongestionRecord) : bool :=
  match lookup focus_regions (region_of r) with
  | Some s' => (year_of r =? y)%string && (s' =? s)%string
  | None => false
  end.

(** Whether a frame has an added column of that name. *)
Definition has_column (name : string) (cs : list (string * list float)) : bool :=
  existsb (fun c => (fst c =? name)%string) cs.



(** ** Example tables *)

(** The scenario of the specification: two years of one region. *)
Definition scenario_table : list EnrollmentRecord :=
  [ mkRecord "2021" "NCR" "Senior High School" "PUBLIC" 1000 (Some 10);
    mkRecord "2022" "NCR" "Senior High School" "PUBLIC" 1200 (Some 10) ]%string.

(** A Senior High School row with learners and an infrastructure count of
    zero. *)
Definition zero_infra_row : EnrollmentRecord :=
  mkRecord "2021" "B" "Senior High School" "PUBLIC" 5 (Some 0).

(** A sheet whose later year comes first, with a Junior High School row, a
    row with a blank infrastructure cell and two rows whose infrastructure
    count is zero. *)
Definition mixed_table : list EnrollmentRecord :=
  [ mkRecord "2022" "A" "Senior High School" "PUBLIC" 10 (Some 1);
    mkRecord "2022" "B" "Senior High School" "PUBLIC" 0 (Some 0);
    zero_infra_row;
    mkRecord "2021" "C" "Junior High School" "PUBLIC" 5 (Some 2);
    mkRecord "2021" "A" "Senior High School" "PRIVATE" 7 None;
    mkRecord "2021" "A" "Senior High School" "PUBLIC" 7 (Some 2) ]%string.

(** A session in which nothing was uploaded or picked, on a disk where the
    default file does not exist. *)
Definition fresh_session : Session := mkSession None None None None.

Definition no_such_file (_ : excel_source) : exn + DataFrame :=
  inl FileNotFoundError.

(** * Properties *)

(** ** [compute_shs]: which rows are kept *)

Lemma shs_mask_true (r : EnrollmentRecord) :
  shs_mask r = true <->
  Level r = "Senior High School"%string /\ Total_Infrastructure r <> None.
Proof.
  unfold shs_mask. rewrite andb_true_iff, String.eqb_eq.
  destruct (Total_Infrastructure r); simpl; intuition congruence.
Qed.

Lemma source_compute_shs (df : list EnrollmentRecord) :
  map source (compute_shs df) = filter shs_mask df.
Proof.
  unfold compute_shs. rewrite map_map. simpl. apply map_id.
Qed.

Lemma in_compute_shs (df : list EnrollmentRecord) (c : CongestionRecord) :
  In c (compute_shs df) <->
  In (source c) df /\ shs_mask (source c) = true
  /\ Learners_per_Infra c = learners_per_infra (source c).
Proof.
  unfold compute_shs. rewrite in_map_iff. split.
  - intros [r [<- Hr]]. apply filter_In in Hr. simpl. tauto.
  - intros [Hin [Hm Hl]]. exists (source c). split.
    + destruct c; simpl in *; congruence.
    + apply filter_In; auto.
Qed.

Lemma filter_length_le {A : Type} (f : A -> bool) (l : list A) :
  (List.length (filter f l) <= List.length l)%nat.
Proof.
  induction l as [|x l IH]; simpl; [lia|].
  destruct (f x); simpl; lia.
Qed.

(** C1: the rows of [compute_shs df] are, in the same order, exactly the
    rows of [df] whose Level is "Senior High School" and whose Total
    Infrastructure is not missing; no Junior High School row is among them
    and there are at most as many rows as in [df]. *)
Theorem compute_shs_keeps_shs_rows_with_infra (df : list EnrollmentRecord) :
  map source (compute_shs df) = filter shs_mask df
  /\ (forall c, In c (compute_shs df) ->
        In (source c) df
        /\ Level (source c) = "Senior High School"%string
        /\ Total_Infrastructure (source c) <> None)
  /\ (forall r, In r df -> Level r = "Senior High School"%string ->
        Total_Infrastructure r <> None ->
        In r (map source (compute_shs df)))
  /\ (forall r, Level r = "Junior High School"%string ->
        ~ In r (map source (compute_shs df)))
  /\ (List.length (compute_shs df) <= List.length df)%nat.
Proof.
  repeat split.
  - apply source_compute_shs.
  - apply in_compute_shs in H. tauto.
  - apply in_compute_shs in H. apply shs_mask_true. tauto.
  - apply in_compute_shs in H. destruct H as [_ [H _]].
    apply shs_mask_true in H. tauto.
  - intros r Hin Hl Hi. rewrite source_compute_shs.
    apply filter_In. split; [assumption|]. apply shs_mask_true; auto.
  - intros r Hl Hin. rewrite source_compute_shs in Hin.
    apply filter_In in Hin. destruct Hin as [_ Hm].
    apply shs_mask_true in Hm. destruct Hm as [Hm _].
    rewrite Hl in Hm. discriminate.
  - unfold compute_shs. rewrite length_map. apply filter_length_le.
Qed.

(** ** [compute_shs]: the added column *)


(** ** The order on strings *)

Lemma ascii_compare_refl (a : ascii) : Ascii.compare a a = Eq.
Proof. unfold Ascii.compare. apply N.compare_refl. Qed.

Lemma string_compare_lt_trans :
  forall a b c : string,
    String.compare a b = Lt -> String.compare b c = Lt -> String.compare a c = Lt.
Proof.
  induction a as [|x a IH]; intros [|y b] [|z c]; simpl; try discriminate; auto.
  destruct (Ascii.compare x y) eqn:Hxy; try discriminate;
    destruct (Ascii.compare y z) eqn:Hyz; try discriminate; intros H1 H2.
  - apply Ascii.compare_eq_iff in Hxy, Hyz. subst.
    rewrite ascii_compare_refl. eauto.
  - apply Ascii.compare_eq_iff in Hxy. subst. rewrite Hyz. reflexivity.
  - apply Ascii.compare_eq_iff in Hyz. subst. rewrite Hxy. reflexivity.
  - unfold Ascii.compare in *. rewrite N.compare_lt_iff in *.
    assert (Hxz : (N_of_ascii x < N_of_ascii z)%N) by lia.
    apply N.compare_lt_iff in Hxz. rewrite Hxz. reflexivity.
Qed.

Lemma string_leb_iff (a b : string) :
  String.leb a b = true <-> String.compare a b = Lt \/ a = b.
Proof.
  unfold String.leb. split.
  - destruct (String.compare a b) eqn:H; try discriminate; auto.
    right. apply String.compare_eq_iff. exact H.
  - intros [H| ->].
    + rewrite H. reflexivity.
    + assert (H : String.compare b b = Eq).
      { pose proof (String.compare_antisym b b) as E.
        destruct (String.compare b b); simpl in E; congruence. }
      rewrite H. reflexivity.
Qed.

Lemma string_leb_trans (a b c : string) :
  String.leb a b = true -> String.leb b c = true -> String.leb a c = true.
Proof.
  rewrite !string_leb_iff. intros [H1| ->] [H2| ->]; auto.
  left. eapply string_compare_lt_trans; eauto.
Qed.


(** ** [get_year_order] *)

Lemma sorted_strongly (l : list string) : StronglySorted le_str (sorted l).
Proof.
  apply StrSort.StronglySorted_sort.
  intros a b c. apply string_leb_trans.
Qed.

Lemma sorted_perm (l : list string) : Permutation l (sorted l).
Proof. apply StrSort.Permuted_sort. Qed.

Lemma in_sorted (l : list string) (x : string) : In x (sorted l) <-> In x l.
Proof.
  split; apply Permutation_in; [symmetry|]; apply sorted_perm.
Qed.

Lemma NoDup_sorted (l : list string) : NoDup l -> NoDup (sorted l).
Proof. apply Permutation_NoDup, sorted_perm. Qed.

(** ** Distinct values *)

Section Unique.
Context {A : Type} (eqb : A -> A -> bool).
Hypothesis eqb_eq : forall a b, eqb a b = true <-> a = b.

Lemma in_unique (l : list A) (x : A) : In x (unique eqb l) <-> In x l.
Proof.
  induction l as [|a l IH]; simpl; [tauto|].
  rewrite filter_In, IH, negb_true_iff.
  destruct (eqb x a) eqn:E.
  - apply eqb_eq in E. subst. intuition congruence.
  - assert (a <> x).
    { intros ->. rewrite (proj2 (eqb_eq x x) eq_refl) in E. discriminate. }
    tauto.
Qed.

Lemma NoDup_unique (l : list A) : NoDup (unique eqb l).
Proof.
  induction l as [|a l IH]; simpl; constructor.
  - rewrite filter_In, negb_true_iff.
    intros [_ E]. rewrite (proj2 (eqb_eq a a) eq_refl) in E. discriminate.
  - apply NoDup_filter, IH.
Qed.

End Unique.

(** Two duplicate-free ascending lists with the same elements are the same
    list. *)
Lemma sorted_nodup_unique (l1 : list string) :
  forall l2,
    StronglySorted le_str l1 -> StronglySorted le_str l2 ->
    NoDup l1 -> NoDup l2 ->
    (forall x, In x l1 <-> In x l2) -> l1 = l2.
Proof.
  induction l1 as [|a l1 IH]; intros [|b l2] S1 S2 N1 N2 E.
  - reflexivity.
  - destruct (proj2 (E b)); simpl; auto.
  - destruct (proj1 (E a)); simpl; auto.
  - apply StronglySorted_inv in S1, S2.
    destruct S1 as [S1 F1], S2 as [S2 F2].
    inversion N1 as [|? ? Na N1']; inversion N2 as [|? ? Nb N2']; subst.
    rewrite Forall_forall in F1, F2.
    assert (a = b) as ->.
    { destruct (proj1 (E a) (or_introl eq_refl)) as [->|Ha]; [reflexivity|].
      destruct (proj2 (E b) (or_introl eq_refl)) as [->|Hb]; [reflexivity|].
      apply String.leb_antisym; [apply F1|apply F2]; assumption. }
    f_equal. apply IH; auto.
    intros x. split; intros Hx.
    + destruct (proj1 (E x) (or_intror Hx)) as [->|]; [contradiction|assumption].
    + destruct (proj2 (E x) (or_intror Hx)) as [->|]; [contradiction|assumption].
Qed.

Lemma in_get_year_order (df : list EnrollmentRecord) (y : string) :
  In y (get_year_order df) <-> exists r, In r df /\ School_Year r = y.
Proof.
  unfold get_year_order.
  rewrite in_sorted, (in_unique _ String.eqb_eq), in_map_iff.
  split; intros [r [H1 H2]]; exists r; auto.
Qed.

(** C6: [get_year_order df] holds each School Year of [df] exactly once, in
    ascending order; it depends on which years occur and not on where they
    first appear, and sorting or deduplicating it again changes nothing. *)
Theorem get_year_order_distinct_ascending (df : list EnrollmentRecord) :
  NoDup (get_year_order df)
  /\ (forall y, In y (get_year_order df) <-> exists r, In r df /\ School_Year r = y)
  /\ StronglySorted le_str (get_year_order df)
  /\ (forall df',
        (forall y, In y (map School_Year df') <-> In y (map School_Year df)) ->
        get_year_order df' = get_year_order df)
  /\ sorted (unique String.eqb (get_year_order df)) = get_year_order df.
Proof.
  assert (N : forall d, NoDup (get_year_order d)).
  { intros d. apply NoDup_sorted, (NoDup_unique _ String.eqb_eq). }
  assert (S : forall d, StronglySorted le_str (get_year_order d)).
  { intros d. apply sorted_strongly. }
  repeat split; auto.
  - apply in_get_year_order.
  - apply in_get_year_order.
  - intros df' E. apply sorted_nodup_unique; auto.
    intros y. unfold get_year_order.
    rewrite !in_sorted, !(in_unique _ String.eqb_eq). apply E.
  - apply sorted_nodup_unique; auto.
    + apply sorted_strongly.
    + apply NoDup_sorted, (NoDup_unique _ String.eqb_eq).
    + intros x. rewrite in_sorted, (in_unique _ String.eqb_eq). tauto.
Qed.

(** ** [nat_shs]: conservation of the totals *)

Lemma wrap64_small (z : Z) : int64 z -> wrap64 z = z.
Proof.
  unfold int64, int64_min, int64_max, wrap64. intros H.
  rewrite Z.mod_small; lia.
Qed.

Lemma wrap64_add_l (a b : Z) : wrap64 (wrap64 a + b) = wrap64 (a + b).
Proof.
  unfold wrap64.
  replace ((a + 2 ^ 63) mod 2 ^ 64 - 2 ^ 63 + b + 2 ^ 63)
    with ((a + 2 ^ 63) mod 2 ^ 64 + b) by ring.
  rewrite Zplus_mod_idemp_l. f_equal. f_equal. ring.
Qed.

Lemma wrap64_add_r (a b : Z) : wrap64 (a + wrap64 b) = wrap64 (a + b).
Proof. rewrite Z.add_comm, wrap64_add_l. f_equal. ring. Qed.

Lemma fold_wrap64 (l : list Z) (a : Z) :
  fold_left (fun acc x => wrap64 (acc + x)) l (wrap64 a) = wrap64 (a + Zsum l).
Proof.
  revert a. induction l as [|x l IH]; intros a; simpl.
  - f_equal. ring.
  - rewrite wrap64_add_l, IH. f_equal. ring.
Qed.

Lemma sum_int64_Zsum (l : list Z) : sum_int64 l = wrap64 (Zsum l).
Proof.
  unfold sum_int64. change 0 with (wrap64 0) at 1. apply fold_wrap64.
Qed.

Lemma wrap64_Zsum_map (l : list Z) :
  wrap64 (Zsum (map wrap64 l)) = wrap64 (Zsum l).
Proof.
  induction l as [|x l IH]; simpl; [reflexivity|].
  rewrite wrap64_add_l, <- wrap64_add_r, IH, wrap64_add_r. reflexivity.
Qed.

Section Groups.
Context {R : Type} (key_of : R -> string) (f : R -> Z).

Lemma Zsum_indicator (ks : list string) (a : string) (v : Z) :
  NoDup ks -> In a ks ->
  Zsum (map (fun k => if (a =? k)%string then v else 0) ks) = v.
Proof.
  induction 1 as [|k ks Hk N IH]; simpl; [tauto|].
  intros [->|Ha].
  - rewrite String.eqb_refl.
    assert (E : Zsum (map (fun k => if (a =? k)%string then v else 0) ks) = 0).
    { clear IH N. induction ks as [|k ks IH]; simpl; [reflexivity|].
      destruct (String.eqb_spec a k) as [->|_].
      - exfalso. apply Hk. left. reflexivity.
      - rewrite IH; [reflexivity|]. intros H. apply Hk. right. exact H. }
    rewrite E. ring.
  - destruct (String.eqb_spec a k) as [->|_]; [contradiction|].
    rewrite IH by assumption. ring.
Qed.

Lemma Zsum_map_add {K : Type} (g h : K -> Z) (ks : list K) :
  Zsum (map (fun k => g k + h k) ks) = Zsum (map g ks) + Zsum (map h ks).
Proof.
  induction ks as [|k ks IH]; simpl; [reflexivity|]. rewrite IH. ring.
Qed.

(** Grouping conserves the total: the group totals over a duplicate-free
    list of keys that covers every row add up to the total of the rows. *)
Lemma Zsum_group_totals (ks : list string) (rows : list R) :
  NoDup ks -> (forall r, In r rows -> In (key_of r) ks) ->
  Zsum (map (group_total key_of f rows) ks) = Zsum (map f rows).
Proof.
  intros N. induction rows as [|r rows IH]; intros C.
  - clear N C. unfold group_total. simpl. induction ks; simpl; auto.
  - rewrite (map_ext (group_total key_of f (r :: rows))
               (fun k => (if (key_of r =? k)%string then f r else 0)
                         + group_total key_of f rows k)).
    + rewrite Zsum_map_add, Zsum_indicator, IH; simpl; auto;
        [intros r0 H0|]; apply C; simpl; auto.
    + intros k. unfold group_total. simpl.
      destruct (key_of r =? k)%string; simpl; ring.
Qed.

End Groups.

Lemma in_group_keys (l : list string) (x : string) : In x (group_keys l) <-> In x l.
Proof. unfold group_keys. rewrite in_sorted. apply in_unique, String.eqb_eq. Qed.

Lemma NoDup_group_keys (l : list string) : NoDup (group_keys l).
Proof. apply NoDup_sorted, NoDup_unique, String.eqb_eq. Qed.

Lemma Zsum_nonneg (l : list Z) : Forall (fun z => 0 <= z) l -> 0 <= Zsum l.
Proof. induction 1; simpl; lia. Qed.

Lemma Zsum_bound (l : list Z) (b : Z) :
  Forall (fun z => 0 <= z) l -> Zsum l <= b -> Forall (fun z => 0 <= z <= b) l.
Proof.
  induction 1 as [|z l Hz Hl IH]; simpl; intros Hb; constructor.
  - pose proof (Zsum_nonneg l Hl). lia.
  - apply IH. lia.
Qed.

Lemma map_wrap64_small (l : list Z) :
  Forall int64 l -> map wrap64 l = l.
Proof.
  induction 1; simpl; [reflexivity|]. rewrite wrap64_small by assumption.
  congruence.
Qed.

Lemma total_enrollment_nat_shs (shs : list CongestionRecord) :
  map total_enrollment (nat_shs shs)
  = map (fun y => wrap64 (group_total year_of enrollment_of shs y))
        (group_keys (map year_of shs)).
Proof.
  unfold nat_shs. rewrite map_map. apply map_ext. intros y. simpl.
  apply sum_int64_Zsum.
Qed.

Lemma Zsum_year_totals (shs : list CongestionRecord) :
  Zsum (map (group_total year_of enrollment_of shs) (group_keys (map year_of shs)))
  = Zsum (map enrollment_of shs).
Proof.
  apply Zsum_group_totals.
  - apply NoDup_group_keys.
  - intros r Hr. apply in_group_keys, in_map, Hr.
Qed.

(** C4: the int64 sum of [total_enrollment] over the rows of [nat_shs shs]
    is the int64 sum of Total Enrollment over the rows of [shs]; when the
    enrollments are non-negative and their total fits in int64, the same
    holds of the exact sums. *)
Theorem nat_shs_conserves_total_enrollment (shs : list CongestionRecord) :
  sum_int64 (map total_enrollment (nat_shs shs)) = sum_int64 (map enrollment_of shs)
  /\ (Forall (fun r => 0 <= enrollment_of r) shs ->
      Zsum (map enrollment_of shs) <= int64_max ->
      Zsum (map total_enrollment (nat_shs shs)) = Zsum (map enrollment_of shs)).
Proof.
  split.
  - rewrite !sum_int64_Zsum, total_enrollment_nat_shs.
    rewrite <- (map_map (group_total year_of enrollment_of shs) wrap64).
    rewrite wrap64_Zsum_map, Zsum_year_totals. reflexivity.
  - intros Hpos Hmax.
    rewrite total_enrollment_nat_shs.
    rewrite <- (map_map (group_total year_of enrollment_of shs) wrap64).
    rewrite map_wrap64_small; [apply Zsum_year_totals|].
    assert (P : Forall (fun z => 0 <= z)
                  (map (group_total year_of enrollment_of shs)
                       (group_keys (map year_of shs)))).
    { apply Forall_forall. intros z Hz. apply in_map_iff in Hz.
      destruct Hz as [y [<- _]]. apply Zsum_nonneg.
      apply Forall_forall. intros z Hz. apply in_map_iff in Hz.
      destruct Hz as [r [<- Hr]]. apply filter_In in Hr.
      rewrite Forall_forall in Hpos. apply Hpos. tauto. }
    apply Zsum_bound with (b := int64_max) in P.
    + eapply Forall_impl; [|exact P]. unfold int64, int64_min. simpl. lia.
    + rewrite Zsum_year_totals. exact Hmax.
Qed.

(** ** Comparison of float64 values *)

Lemma SFcompare_antisym (x y : spec_float) :
  SFcompare y x = option_map CompOpp (SFcompare x y).
Proof.
  destruct x as [sx|sx| |sx mx ex], y as [sy|sy| |sy my ey]; simpl;
    try reflexivity;
    try (destruct sx; reflexivity); try (destruct sy; reflexivity);
    try (destruct sx, sy; reflexivity).
  destruct sx, sy; simpl; try reflexivity;
    rewrite (Z.compare_antisym ex ey);
    destruct (ex ?= ey) eqn:E; simpl; try reflexivity;
    rewrite (Pos.compare_cont_antisym mx my Eq); reflexivity.
Qed.

Lemma SFcompare_refl (x : spec_float) :
  x <> S754_nan -> SFcompare x x = Some Eq.
Proof.
  destruct x as [s|s| |s m e]; simpl; try congruence.
  - destruct s; reflexivity.
  - intros _. rewrite Z.compare_refl.
    assert (E : Pos.compare_cont Eq m m = Eq) by apply Pos.compare_refl.
    rewrite E. destruct s; reflexivity.
Qed.

Lemma SFcompare_nan (x y : spec_float) :
  SFcompare x y = None <-> x = S754_nan \/ y = S754_nan.
Proof.
  destruct x as [sx|sx| |sx mx ex], y as [sy|sy| |sy my ey]; simpl;
    split; intros H; try discriminate; auto;
    destruct H; discriminate.
Qed.

Lemma is_nan_spec (x : float) : is_nan x = true <-> Prim2SF x = S754_nan.
Proof.
  unfold is_nan. rewrite FloatAxioms.eqb_spec. unfold SFeqb. split.
  - intros H. destruct (SFcompare (Prim2SF x) (Prim2SF x)) eqn:E.
    + destruct (Prim2SF x) eqn:P; try reflexivity;
        rewrite SFcompare_refl in E by discriminate;
        inversion E; subst; discriminate.
    + apply SFcompare_nan in E. tauto.
  - intros ->. reflexivity.
Qed.

Lemma notnan_spec (x : float) : notnan x = true <-> Prim2SF x <> S754_nan.
Proof.
  unfold notnan. rewrite negb_true_iff, <- is_nan_spec.
  destruct (is_nan x); intuition congruence.
Qed.

(** Among values that are not NaN, "not less" is "greater or equal". *)
Lemma ltb_false_leb (x y : float) :
  notnan x = true -> notnan y = true ->
  (x <? y)%float = false -> (y <=? x)%float = true.
Proof.
  rewrite !notnan_spec, FloatAxioms.ltb_spec, FloatAxioms.leb_spec. unfold SFltb, SFleb.
  intros Hx Hy. rewrite (SFcompare_antisym (Prim2SF x) (Prim2SF y)).
  destruct (SFcompare (Prim2SF x) (Prim2SF y)) as [[]|] eqn:E; simpl;
    try congruence.
  apply SFcompare_nan in E. tauto.
Qed.

Lemma ltb_leb (x y : float) : (x <? y)%float = true -> (x <=? y)%float = true.
Proof.
  rewrite FloatAxioms.ltb_spec, FloatAxioms.leb_spec. unfold SFltb, SFleb.
  destruct (SFcompare (Prim2SF x) (Prim2SF y)) as [[]|]; congruence.
Qed.


(** ** [sort_values]: descending, NaN last *)

Lemma insert_desc_perm (x : string * float) (l : list (string * float)) :
  Permutation (insert_desc x l) (x :: l).
Proof.
  induction l as [|y l IH]; simpl; [reflexivity|].
  destruct (snd x <? snd y)%float; [|reflexivity].
  rewrite IH. apply perm_swap.
Qed.

Lemma sort_desc_perm (l : list (string * float)) :
  Permutation (fold_right insert_desc [] l) l.
Proof.
  induction l as [|x l IH]; simpl; [reflexivity|].
  rewrite insert_desc_perm. constructor. exact IH.
Qed.

Lemma insert_desc_HdRel (x y : string * float) (l : list (string * float)) :
  ge_entry y x -> HdRel ge_entry y l -> HdRel ge_entry y (insert_desc x l).
Proof.
  intros Hyx Hl. destruct l as [|z l]; simpl.
  - constructor. exact Hyx.
  - destruct (snd x <? snd z)%float; constructor.
    + inversion Hl. assumption.
    + exact Hyx.
Qed.

Lemma insert_desc_sorted (x : string * float) (l : list (string * float)) :
  entry_notnan x = true -> Forall (fun p => entry_notnan p = true) l ->
  Sorted ge_entry l -> Sorted ge_entry (insert_desc x l).
Proof.
  intros Hx. induction l as [|y l IH]; intros Hl Hs; simpl.
  - repeat constructor.
  - inversion Hl as [|? ? Hy Hl']; subst.
    inversion Hs as [|? ? Hs' Hd]; subst.
    destruct (snd x <? snd y)%float eqn:E.
    + constructor; [apply IH; assumption|].
      apply insert_desc_HdRel; [|assumption].
      apply ltb_leb. exact E.
    + constructor; [assumption|]. constructor.
      apply ltb_false_leb; assumption.
Qed.

Lemma sort_desc_sorted (l : list (string * float)) :
  Forall (fun p => entry_notnan p = true) l ->
  Sorted ge_entry (fold_right insert_desc [] l).
Proof.
  induction 1 as [|x l Hx Hl IH]; simpl; [constructor|].
  apply insert_desc_sorted; auto.
  eapply Permutation_Forall; [|exact Hl]. symmetry. apply sort_desc_perm.
Qed.

Lemma Sorted_adjacent {A : Type} (R : A -> A -> Prop) (l : list A) :
  Sorted R l ->
  forall i p q, nth_error l i = Some p -> nth_error l (S i) = Some q -> R p q.
Proof.
  induction 1 as [|a l Hs IH Hd]; intros i p q Hp Hq.
  - destruct i; discriminate.
  - destruct i as [|i]; simpl in *.
    + inversion Hp; subst. destruct l as [|b l]; [discriminate|].
      inversion Hq; subst. inversion Hd. assumption.
    + eapply IH; eassumption.
Qed.

Lemma filter_partition_perm {A : Type} (f : A -> bool) (l : list A) :
  Permutation (filter f l ++ filter (fun x => negb (f x)) l) l.
Proof.
  induction l as [|x l IH]; simpl; [reflexivity|].
  destruct (f x); simpl.
  - constructor. exact IH.
  - rewrite <- Permutation_middle. constructor. exact IH.
Qed.

Lemma sort_values_desc_perm (s : list (string * float)) :
  Permutation (sort_values_desc s) s.
Proof.
  unfold sort_values_desc. rewrite sort_desc_perm.
  rewrite <- (filter_partition_perm entry_notnan s) at 3.
  apply Permutation_app_head.
  rewrite (filter_ext (fun p => is_nan (snd p)) (fun p => negb (entry_notnan p)));
    [reflexivity|].
  intros p. unfold entry_notnan, notnan. rewrite negb_involutive. reflexivity.
Qed.

(** Two neighbours of which the later value is not NaN are in descending
    order. *)
Lemma sort_values_desc_adjacent (s : list (string * float)) :
  forall i p q,
    nth_error (sort_values_desc s) i = Some p ->
    nth_error (sort_values_desc s) (S i) = Some q ->
    is_nan (snd q) = false -> ge_entry p q.
Proof.
  intros i p q Hp Hq Hn. unfold sort_values_desc in *.
  set (A := fold_right insert_desc [] (filter (fun p => notnan (snd p)) s)) in *.
  set (B := filter (fun p => is_nan (snd p)) s) in *.
  destruct (Nat.lt_ge_cases (S i) (List.length A)) as [Hlt|Hge].
  - rewrite nth_error_app1 in Hp, Hq by lia.
    refine (Sorted_adjacent ge_entry A _ i p q Hp Hq).
    apply sort_desc_sorted. apply Forall_forall. intros x Hx.
    apply filter_In in Hx. apply Hx.
  - rewrite nth_error_app2 in Hq by lia.
    apply nth_error_In in Hq. apply filter_In in Hq. destruct Hq. congruence.
Qed.


(** ** [ranking] *)

Lemma in_shs_year (shs : list CongestionRecord) (y : string) (r : CongestionRecord) :
  In r (shs_year shs y) <-> In r shs /\ year_of r = y.
Proof. unfold shs_year. rewrite filter_In, String.eqb_eq. tauto. Qed.

Lemma in_region_means (rows : list CongestionRecord) (g : string) (m : float) :
  In (g, m) (region_means rows) <->
  In g (map region_of rows) /\ m = mean (region_values rows g).
Proof.
  unfold region_means. rewrite in_map_iff. split.
  - intros [k [E Hk]]. inversion E; subst.
    split; [apply in_group_keys; assumption|reflexivity].
  - intros [Hg ->]. exists g. split; [reflexivity|]. apply in_group_keys, Hg.
Qed.


Lemma ranking_perm (shs : list CongestionRecord) (y : string) :
  Permutation (ranking shs y) (region_means (shs_year shs y)).
Proof. apply sort_values_desc_perm. Qed.


(** C8: for a year that no row of [shs] has, [ranking] is the empty
    sequence, and the step of the script that draws it ends normally, with
    an empty chart. *)
Theorem ranking_empty_year (shs : list CongestionRecord) (y : string) :
  (forall r, In r shs -> year_of r <> y) ->
  ranking shs y = []
  /\ forall tr, emit (plot_fig_rank (ranking shs y)) tr
                = (Value tt, tr ++ [plot_fig_rank []]).
Proof.
  intros H.
  assert (E : shs_year shs y = []).
  { unfold shs_year. induction shs as [|r shs IH]; simpl; [reflexivity|].
    destruct (String.eqb_spec (year_of r) y) as [E|_].
    - exfalso. apply (H r); simpl; auto.
    - apply IH. intros r' Hr'. apply H. simpl. auto. }
  assert (R : ranking shs y = []) by (unfold ranking; rewrite E; reflexivity).
  split; [exact R|]. intros tr. rewrite R. reflexivity.
Qed.

(** ** The script: loading *)

Lemma load_data_source (read_excel : excel_source -> exn + DataFrame) (ss : Session) :
  load_data read_excel (uploaded ss) default_path
  = match read_excel (session_source ss) with
    | inl e => inl e
    | inr df => inr (mkDataFrame (map strip (columns df)) (rows df))
    end.
Proof. unfold load_data, session_source. destruct (uploaded ss); reflexivity. Qed.

(** C5: whatever exception reading the sheet raises, [load_data] raises it
    and returns no table, and the run of the script consists of the upload
    control and one error message, after which it stops: no table is
    computed and no chart is drawn. *)
Theorem load_failure_stops_with_one_message
    (read_excel : excel_source -> exn + DataFrame) (ss : Session) (e : exn) :
  read_excel (session_source ss) = inl e ->
  load_data read_excel (uploaded ss) default_path = inl e
  /\ appDataViz read_excel ss []
     = (Stopped, [sidebar_file_uploader; st_error
                  "Error loading dataset. Check file name/path or upload the file."]).
Proof.
  intros H. assert (L := load_data_source read_excel ss). rewrite H in L.
  split; [exact L|].
  unfold appDataViz, bind, emit. simpl. rewrite L. reflexivity.
Qed.

(** ** The script: the year controls *)

Lemma get_year_order_nil (rs : list EnrollmentRecord) :
  get_year_order rs = [] <-> rs = [].
Proof.
  split; [|intros ->; reflexivity].
  destruct rs as [|r rs]; [reflexivity|]. intros E. exfalso.
  assert (H : In (School_Year r) (get_year_order (r :: rs))).
  { apply in_get_year_order. exists r. simpl. auto. }
  rewrite E in H. exact H.
Qed.










(** ** [compute_shs] on objects *)

Lemma select_map_filter {A : Type} (f : A -> bool) (l : list A) :
  select (map f l) l = filter f l.
Proof.
  induction l as [|x l IH]; simpl; [reflexivity|].
  destruct (f x); rewrite IH; reflexivity.
Qed.

Lemma update_last (h : heap) (f g : frame) :
  update (h ++ [f]) (List.length h) g = h ++ [g].
Proof. induction h as [|a h IH]; simpl; [reflexivity|]. rewrite IH. reflexivity. Qed.

Lemma nth_error_last {A : Type} (l : list A) (a : A) :
  nth_error (l ++ [a]) (List.length l) = Some a.
Proof. rewrite nth_error_app2, Nat.sub_diag by lia. reflexivity. Qed.

Lemma combine_map_r {A B : Type} (f : A -> B) (l : list A) :
  combine l (map f l) = map (fun a => (a, f a)) l.
Proof. induction l as [|a l IH]; simpl; [reflexivity|]. rewrite IH. reflexivity. Qed.

Lemma op_bind_some {A B : Type} (m : op A) (k : A -> op B) (h h' : heap) (a : A) :
  m h = Some (a, h') -> op_bind m k h = k a h'.
Proof. unfold op_bind. intros ->. reflexivity. Qed.

Lemma deref_some (h : heap) (l : ref) (f : frame) :
  nth_error h l = Some f -> deref l h = Some (f, h).
Proof. unfold deref. intros ->. reflexivity. Qed.

Lemma getitem_mask_run (h : heap) (l : ref) (f : frame) (mask : list bool) :
  nth_error h l = Some f ->
  getitem_mask l mask h
  = Some (List.length h,
          h ++ [mkFrame (select mask (frame_rows f))
                        (map (fun c => (fst c, select mask (snd c)))
                             (frame_added f))]).
Proof.
  intros H. unfold getitem_mask.
  rewrite (op_bind_some _ _ _ _ _ (deref_some _ _ _ H)). reflexivity.
Qed.

Lemma copy_last (h : heap) (f : frame) :
  copy (List.length h) (h ++ [f]) = Some (S (List.length h), (h ++ [f]) ++ [f]).
Proof.
  unfold copy.
  rewrite (op_bind_some _ _ _ _ _ (deref_some _ _ _ (nth_error_last h f))).
  unfold alloc. rewrite length_app, Nat.add_comm. reflexivity.
Qed.

Lemma setitem_last (h : heap) (f : frame) (name : string) (vals : list float) :
  setitem (List.length h) name vals (h ++ [f])
  = Some (tt, h ++ [mkFrame (frame_rows f)
                            (set_column name vals (frame_added f))]).
Proof.
  unfold setitem.
  rewrite (op_bind_some _ _ _ _ _ (deref_some _ _ _ (nth_error_last h f))).
  unfold assign. rewrite update_last. reflexivity.
Qed.

(** What the run of [compute_shs] on a loaded table does to the heap: two
    objects are appended, the selection and its copy with the new column. *)
Lemma compute_shs_object_run (h : heap) (df : ref) (rs : list EnrollmentRecord) :
  nth_error h df = Some (raw_frame rs) ->
  compute_shs_object df h
  = Some (S (List.length h),
          h ++ [raw_frame (filter shs_mask rs);
                mkFrame (filter shs_mask rs)
                        [("Learners per Infra"%string,
                          map learners_per_infra (filter shs_mask rs))]]).
Proof.
  intros H. unfold compute_shs_object.
  rewrite (op_bind_some _ _ _ _ _ (deref_some _ _ _ H)).
  rewrite (op_bind_some _ _ _ _ _ (getitem_mask_run _ _ _ _ H)).
  simpl frame_rows. simpl frame_added. simpl map at 2.
  rewrite select_map_filter.
  rewrite (op_bind_some _ _ _ _ _ (copy_last _ _)).
  set (sel := mkFrame (filter shs_mask rs) []).
  assert (L : S (List.length h) = List.length (h ++ [sel]))
    by (rewrite length_app, Nat.add_comm; reflexivity).
  rewrite L.
  rewrite (op_bind_some _ _ _ _ _ (deref_some _ _ _ (nth_error_last _ sel))).
  rewrite (op_bind_some _ _ _ _ _ (setitem_last _ _ _ _)).
  unfold op_ret. rewrite <- app_assoc. reflexivity.
Qed.

(** C7: run on a heap in which [df] refers to a loaded table,
    [compute_shs] returns a reference to an object that did not exist
    before; every object of the heap, the input table among them, is what
    it was before the call; and the returned table has the columns of the
    input followed by the one column Learners per Infra, its rows being
    those of [compute_shs]. *)
Theorem compute_shs_object_leaves_input
    (h : heap) (df : ref) (rs : list EnrollmentRecord) :
  nth_error h df = Some (raw_frame rs) ->
  exists (shs : ref) (h' : heap) (out : frame),
    compute_shs_object df h = Some (shs, h')
    /\ shs <> df
    /\ nth_error h shs = None
    /\ (forall l f, nth_error h l = Some f -> nth_error h' l = Some f)
    /\ nth_error h' df = Some (raw_frame rs)
    /\ nth_error h' shs = Some out
    /\ frame_columns out = frame_columns (raw_frame rs) ++ ["Learners per Infra"%string]
    /\ congestion_rows out = Some (compute_shs rs).
Proof.
  intros H. eexists _, _, _. split; [apply compute_shs_object_run, H|].
  assert (K : forall l f, nth_error h l = Some f ->
                nth_error (h ++ [raw_frame (filter shs_mask rs);
                  mkFrame (filter shs_mask rs)
                    [("Learners per Infra"%string,
                      map learners_per_infra (filter shs_mask rs))]]) l = Some f).
  { intros l f Hl. rewrite nth_error_app1; [assumption|].
    apply nth_error_Some. congruence. }
  split; [|split; [|split; [|split; [|split; [|split]]]]].
  - intros E. rewrite <- E in H.
    rewrite (proj2 (nth_error_None h (S (List.length h)))) in H by lia.
    discriminate.
  - apply nth_error_None. lia.
  - exact K.
  - apply K, H.
  - rewrite nth_error_app2 by lia.
    replace (S (List.length h) - List.length h)%nat with 1%nat by lia.
    reflexivity.
  - reflexivity.
  - unfold congestion_rows. simpl. rewrite combine_map_r, map_map. reflexivity.
Qed.

(** ** Rounding to binary64 *)

Lemma digits2_pos_size (p : positive) : digits2_pos p = Pos.size p.
Proof. induction p; simpl; congruence. Qed.

Lemma Zdigits2_log2 (m : Z) : 0 < m -> Zdigits2 m = Z.log2 m + 1.
Proof.
  destruct m as [|p|p]; try lia. intros _. simpl.
  destruct p; simpl; rewrite ?digits2_pos_size; lia.
Qed.

(** One step of [shr] halves the mantissa. *)
Lemma shr_m_shr_1 (mrs : shr_record) :
  0 <= shr_m mrs -> shr_m (shr_1 mrs) = Z.div2 (shr_m mrs).
Proof.
  destruct mrs as [m r s]. simpl. destruct m as [|p|p]; [reflexivity| |lia].
  intros _. destruct p; reflexivity.
Qed.

Lemma shr_m_iter_pos (n : positive) :
  forall mrs, 0 <= shr_m mrs ->
    shr_m (iter_pos shr_1 n mrs) = Z.shiftr (shr_m mrs) (Zpos n).
Proof.
  assert (N : forall m k, 0 <= m -> 0 <= Z.shiftr m k).
  { intros m k H. apply Z.shiftr_nonneg. exact H. }
  induction n as [n IH|n IH|]; intros mrs H; simpl iter_pos.
  - assert (H1 : 0 <= shr_m (shr_1 mrs)).
    { rewrite shr_m_shr_1 by assumption. apply Z.div2_nonneg. exact H. }
    assert (H2 : 0 <= shr_m (iter_pos shr_1 n (shr_1 mrs))).
    { rewrite IH by assumption. apply N. exact H1. }
    rewrite IH, IH, shr_m_shr_1 by assumption.
    rewrite Z.div2_spec, !Z.shiftr_shiftr by lia. f_equal. lia.
  - assert (H2 : 0 <= shr_m (iter_pos shr_1 n mrs)).
    { rewrite IH by assumption. apply N. exact H. }
    rewrite IH, IH by assumption.
    rewrite Z.shiftr_shiftr by lia. f_equal. lia.
  - rewrite shr_m_shr_1 by assumption. apply Z.div2_spec.
Qed.

Lemma shr_m_shr (mrs : shr_record) (e n : Z) :
  0 <= shr_m mrs ->
  shr_m (fst (shr mrs e n)) = Z.shiftr (shr_m mrs) (Z.max n 0)
  /\ snd (shr mrs e n) = e + Z.max n 0.
Proof.
  intros H. destruct n as [|p|p]; simpl.
  - split; [reflexivity|lia].
  - rewrite shr_m_iter_pos by assumption. split; reflexivity.
  - split; [reflexivity|lia].
Qed.

Lemma shr_m_record_of_loc (m : Z) (l : location) :
  shr_m (shr_record_of_loc m l) = m.
Proof. destruct l as [|[]]; reflexivity. Qed.

Lemma round_nearest_even_bounds (m : Z) (l : location) :
  m <= round_nearest_even m l <= m + 1.
Proof.
  unfold round_nearest_even. destruct l as [|[]]; try lia.
  destruct (Z.even m); lia.
Qed.

Lemma shr_fexp_spec (m e : Z) (l : location) :
  0 <= m ->
  shr_m (fst (shr_fexp prec emax m e l))
  = Z.shiftr m (Z.max (fexp prec emax (Zdigits2 m + e) - e) 0)
  /\ snd (shr_fexp prec emax m e l)
     = e + Z.max (fexp prec emax (Zdigits2 m + e) - e) 0.
Proof.
  intros H. unfold shr_fexp.
  pose proof (shr_m_shr (shr_record_of_loc m l) e
                (fexp prec emax (Zdigits2 m + e) - e)) as S.
  rewrite shr_m_record_of_loc in S. apply S. exact H.
Qed.

Lemma binary_round_aux_signed (sx : bool) (mx ex : Z) (lx : location) :
  0 <= mx -> SF_signed sx (binary_round_aux prec emax sx mx ex lx).
Proof.
  intros H. unfold binary_round_aux.
  destruct (shr_fexp_spec mx ex lx H) as [M1 _].
  destruct (shr_fexp prec emax mx ex lx) as [mrs' e']. simpl in M1.
  set (m1 := round_nearest_even (shr_m mrs') (loc_of_shr_record mrs')).
  assert (H1 : 0 <= m1).
  { pose proof (round_nearest_even_bounds (shr_m mrs') (loc_of_shr_record mrs')).
    assert (0 <= shr_m mrs') by (rewrite M1; apply Z.shiftr_nonneg; exact H).
    unfold m1. lia. }
  destruct (shr_fexp_spec m1 e' loc_Exact H1) as [M2 _].
  destruct (shr_fexp prec emax m1 e' loc_Exact) as [mrs'' e'']. simpl in M2.
  assert (H2 : 0 <= shr_m mrs'') by (rewrite M2; apply Z.shiftr_nonneg; exact H1).
  destruct (shr_m mrs'') as [|p|p]; [reflexivity| |lia].
  destruct (e'' <=? emax - prec); reflexivity.
Qed.

Lemma shiftr_pos (m n : Z) : 0 < m -> 0 <= n -> n <= Z.log2 m -> 0 < Z.shiftr m n.
Proof.
  intros Hm Hn Hl. rewrite Z.shiftr_div_pow2 by assumption.
  apply Z.div_str_pos. split; [apply Z.pow_pos_nonneg; lia|].
  apply Z.log2_le_pow2; assumption.
Qed.

Lemma log2_shiftr_pos (m n : Z) :
  0 < m -> 0 <= n -> n <= Z.log2 m -> Z.log2 (Z.shiftr m n) = Z.log2 m - n.
Proof.
  intros Hm Hn Hl. rewrite Z.log2_shiftr by assumption. lia.
Qed.

Lemma binary_round_aux_finite (sx : bool) (mx ex : Z) (lx : location) :
  0 < mx -> -1073 <= Zdigits2 mx + ex <= 1023 -> ex <= 971 ->
  exists m e, binary_round_aux prec emax sx mx ex lx = S754_finite sx m e.
Proof.
  intros Hm Hd He. unfold binary_round_aux.
  destruct (shr_fexp_spec mx ex lx (Z.lt_le_incl _ _ Hm)) as [M1 E1].
  destruct (shr_fexp prec emax mx ex lx) as [mrs' e']. simpl in M1, E1.
  rewrite Zdigits2_log2 in * by assumption.
  pose proof (Z.log2_nonneg mx) as L0.
  set (n1 := Z.max (fexp prec emax (Z.log2 mx + 1 + ex) - ex) 0) in *.
  assert (N1 : 0 <= n1 <= Z.log2 mx).
  { unfold n1, fexp, emin, prec, emax. lia. }
  assert (P1 : 0 < shr_m mrs') by (rewrite M1; apply shiftr_pos; lia).
  assert (L1 : Z.log2 (shr_m mrs') = Z.log2 mx - n1)
    by (rewrite M1; apply log2_shiftr_pos; lia).
  set (m1 := round_nearest_even (shr_m mrs') (loc_of_shr_record mrs')).
  pose proof (round_nearest_even_bounds (shr_m mrs') (loc_of_shr_record mrs')) as B.
  fold m1 in B.
  assert (Q1 : 0 < m1) by lia.
  assert (L2 : Z.log2 mx - n1 <= Z.log2 m1 <= Z.log2 mx - n1 + 1).
  { rewrite <- L1. split; [apply Z.log2_le_mono; lia|].
    apply Z.le_trans with (Z.log2 (Z.succ (shr_m mrs'))).
    - apply Z.log2_le_mono. lia.
    - apply Z.log2_succ_le. }
  destruct (shr_fexp_spec m1 e' loc_Exact (Z.lt_le_incl _ _ Q1)) as [M2 E2].
  destruct (shr_fexp prec emax m1 e' loc_Exact) as [mrs'' e'']. simpl in M2, E2.
  rewrite Zdigits2_log2 in * by assumption.
  set (n2 := Z.max (fexp prec emax (Z.log2 m1 + 1 + e') - e') 0) in *.
  assert (N2 : 0 <= n2 <= Z.log2 m1 /\ e' + n2 <= 971).
  { unfold n2, n1, fexp, emin, prec, emax in *. lia. }
  assert (P2 : 0 < shr_m mrs'') by (rewrite M2; apply shiftr_pos; lia).
  destruct (shr_m mrs'') as [|p|p]; try lia.
  assert (C : (e'' <=? emax - prec) = true).
  { apply Z.leb_le. unfold emax, prec. lia. }
  rewrite C. eauto.
Qed.

Lemma digits2_pos_iter_xO (p d : positive) :
  Zpos (digits2_pos (Pos.iter xO p d)) = Zpos (digits2_pos p) + Zpos d.
Proof.
  induction d as [|d IH] using Pos.peano_ind.
  - simpl. lia.
  - rewrite Pos.iter_succ. simpl digits2_pos. lia.
Qed.

Lemma binary_round_signed (sx : bool) (mx : positive) (ex : Z) :
  SF_signed sx (binary_round prec emax sx mx ex).
Proof.
  unfold binary_round. destruct (shl_align mx ex _) as [mz ez].
  apply binary_round_aux_signed. lia.
Qed.

Lemma binary_round_finite (sx : bool) (mx : positive) (ex : Z) :
  -1073 <= Zpos (digits2_pos mx) + ex <= 1023 -> ex <= 971 ->
  exists m e, binary_round prec emax sx mx ex = S754_finite sx m e.
Proof.
  intros Hd He. unfold binary_round, shl_align.
  set (ex' := fexp prec emax (Zpos (digits2_pos mx) + ex)).
  destruct (ex' - ex) as [|d|d] eqn:E;
    apply binary_round_aux_finite; simpl Zdigits2; try lia.
  rewrite digits2_pos_iter_xO.
  unfold ex', fexp, emin, prec, emax in *. lia.
Qed.

Lemma Prim2SF_float_of_int_pos (z : Z) :
  0 < z <= int64_max ->
  Prim2SF (float_of_int z) = binary_normalize prec emax z 0 false.
Proof.
  intros H. destruct z as [|p|p]; try lia. unfold float_of_int.
  rewrite FloatAxioms.of_uint63_spec, Uint63.of_Z_spec, Z.mod_small; [reflexivity|].
  unfold int64_max in H. change wB with (2 ^ 63). lia.
Qed.

(** A positive int64 converts to a positive finite float. *)
Lemma float_of_int_finite (z : Z) :
  0 < z <= int64_max ->
  exists m e, Prim2SF (float_of_int z) = S754_finite false m e.
Proof.
  intros H. rewrite Prim2SF_float_of_int_pos by assumption.
  destruct z as [|p|p]; try lia. simpl binary_normalize.
  apply binary_round_finite; [|lia].
  change (Zpos (digits2_pos p)) with (Zdigits2 (Zpos p)).
  rewrite Zdigits2_log2 by lia.
  pose proof (Z.log2_nonneg (Zpos p)).
  assert (Z.log2 (Zpos p) < 63).
  { apply Z.log2_lt_pow2; [lia|]. unfold int64_max in H. lia. }
  lia.
Qed.

Lemma float_of_int_signed (z : Z) :
  0 <= z <= int64_max -> SF_signed false (Prim2SF (float_of_int z)).
Proof.
  intros H. destruct (Z.eq_dec z 0) as [->|N].
  - reflexivity.
  - destruct (float_of_int_finite z) as [m [e ->]]; [lia|reflexivity].
Qed.

(** ** Sums and quotients of non-negative values *)

Lemma SFadd_signed (x y : spec_float) :
  SF_signed false x -> SF_signed false y ->
  SF_signed false (SFadd prec emax x y).
Proof.
  destruct x as [sx|sx| |sx mx ex], y as [sy|sy| |sy my ey]; simpl;
    intros Hx Hy; subst; try reflexivity; try contradiction.
  apply binary_round_signed.
Qed.

Lemma SFadd_infinity_l (y : spec_float) :
  SF_signed false y -> SFadd prec emax (S754_infinity false) y = S754_infinity false.
Proof. destruct y; simpl; intros H; subst; try reflexivity; contradiction. Qed.

Lemma SFadd_infinity_r (x : spec_float) :
  SF_signed false x -> SFadd prec emax x (S754_infinity false) = S754_infinity false.
Proof. destruct x; simpl; intros H; subst; try reflexivity; contradiction. Qed.

Lemma div_eucl_div (a b : Z) : Z.div_eucl a b = (a / b, a mod b).
Proof. unfold Z.div, Z.modulo. destruct (Z.div_eucl a b). reflexivity. Qed.

Lemma SFdiv_core_binary_nonneg (mx my : positive) (ex ey : Z) :
  0 <= fst (fst (SFdiv_core_binary prec emax (Zpos mx) ex (Zpos my) ey)).
Proof.
  unfold SFdiv_core_binary.
  match goal with |- context [Z.div_eucl ?a ?b] => set (m' := a) end.
  assert (H : 0 <= m').
  { unfold m'. destruct (_ - _ - _) as [|s|s]; try lia.
    apply Z.shiftl_nonneg. lia. }
  rewrite div_eucl_div. simpl. apply Z.div_pos; lia.
Qed.

Lemma SFdiv_signed (x y : spec_float) :
  SF_signed false x -> SF_signed false y ->
  SF_signed false (SFdiv prec emax x y) \/ SFdiv prec emax x y = S754_nan.
Proof.
  destruct x as [sx|sx| |sx mx ex], y as [sy|sy| |sy my ey]; simpl;
    intros Hx Hy; subst; auto.
  left. pose proof (SFdiv_core_binary_nonneg mx my ex ey) as H.
  destruct (SFdiv_core_binary prec emax (Zpos mx) ex (Zpos my) ey) as [[mz ez] lz].
  apply binary_round_aux_signed. exact H.
Qed.

Lemma Prim2SF_infinity : Prim2SF infinity = S754_infinity false.
Proof. reflexivity. Qed.

Lemma eq_infinity (x : float) : Prim2SF x = S754_infinity false -> x = infinity.
Proof. intros H. apply Prim2SF_inj. rewrite H. reflexivity. Qed.

Lemma nonneg_notnan (x : float) : nonneg x -> notnan x = true.
Proof.
  unfold nonneg. intros H. apply notnan_spec. intros E. rewrite E in H. exact H.
Qed.

Lemma nonneg_add (x y : float) : nonneg x -> nonneg y -> nonneg (x + y)%float.
Proof. unfold nonneg. rewrite FloatAxioms.add_spec. apply SFadd_signed. Qed.

Lemma add_infinity_l (y : float) : nonneg y -> (infinity + y)%float = infinity.
Proof.
  intros H. apply eq_infinity. rewrite FloatAxioms.add_spec. apply SFadd_infinity_l, H.
Qed.

Lemma add_infinity_r (x : float) : nonneg x -> (x + infinity)%float = infinity.
Proof.
  intros H. apply eq_infinity. rewrite FloatAxioms.add_spec. apply SFadd_infinity_r, H.
Qed.

Lemma fold_add_nonneg (l : list float) :
  forall acc, nonneg acc -> Forall nonneg l -> nonneg (fold_left PrimFloat.add l acc).
Proof.
  induction l as [|x l IH]; intros acc Ha Hl; simpl; [exact Ha|].
  inversion Hl; subst. apply IH; [apply nonneg_add|]; assumption.
Qed.

Lemma fold_add_from_infinity (l : list float) :
  Forall nonneg l -> fold_left PrimFloat.add l infinity = infinity.
Proof.
  induction 1 as [|x l Hx Hl IH]; simpl; [reflexivity|].
  rewrite add_infinity_l by assumption. exact IH.
Qed.

(** One [+inf] among non-negative values makes their sum [+inf]. *)
Lemma fold_add_infinity (l : list float) :
  forall acc, nonneg acc -> Forall nonneg l -> In infinity l ->
    fold_left PrimFloat.add l acc = infinity.
Proof.
  induction l as [|x l IH]; intros acc Ha Hl Hin; simpl; [contradiction|].
  inversion Hl; subst. destruct Hin as [->|Hin].
  - rewrite add_infinity_r by assumption. apply fold_add_from_infinity. assumption.
  - apply IH; [apply nonneg_add| |]; assumption.
Qed.

Lemma div_infinity_count (n : Z) :
  0 < n <= int64_max -> (infinity / float_of_int n)%float = infinity.
Proof.
  intros H. apply eq_infinity. rewrite FloatAxioms.div_spec.
  destruct (float_of_int_finite n H) as [m [e ->]]. reflexivity.
Qed.

(** The mean of values that are non-negative or missing is [+inf] as soon as
    one of them is. *)
Lemma mean_infinity (l : list float) :
  Forall (fun x => nonneg x \/ is_nan x = true) l ->
  Z.of_nat (List.length l) <= int64_max ->
  In infinity l -> mean l = infinity.
Proof.
  intros Hl Hn Hin. unfold mean.
  assert (V : Forall nonneg (filter notnan l)).
  { apply Forall_forall. intros x Hx. apply filter_In in Hx.
    destruct Hx as [Hx Nx]. rewrite Forall_forall in Hl.
    destruct (Hl x Hx) as [H|H]; [exact H|].
    unfold notnan in Nx. rewrite H in Nx. discriminate. }
  assert (I : In infinity (filter notnan l)).
  { apply filter_In. split; [assumption|reflexivity]. }
  pose proof (filter_length_le notnan l) as Len.
  destruct (filter notnan l) as [|v vals] eqn:E; [contradiction|].
  rewrite fold_add_infinity; [| reflexivity | assumption | assumption].
  apply div_infinity_count. simpl List.length in *. lia.
Qed.

(** ** Division by a zero infrastructure count *)

Lemma learners_per_infra_zero (r : EnrollmentRecord) :
  Total_Infrastructure r = Some 0 -> 0 < Total_Enrollment r <= int64_max ->
  learners_per_infra r = infinity.
Proof.
  intros Hi He. unfold learners_per_infra. rewrite Hi. simpl infra_value.
  apply eq_infinity. rewrite FloatAxioms.div_spec.
  destruct (float_of_int_finite _ He) as [m [e ->]]. reflexivity.
Qed.

Lemma learners_per_infra_nonneg (r : EnrollmentRecord) :
  data_model_row r -> Total_Infrastructure r <> None ->
  nonneg (learners_per_infra r) \/ is_nan (learners_per_infra r) = true.
Proof.
  intros [He Hi] Hn. unfold learners_per_infra.
  destruct (Total_Infrastructure r) as [z|]; [|congruence]. simpl infra_value.
  unfold nonneg. rewrite is_nan_spec, FloatAxioms.div_spec.
  apply SFdiv_signed; apply float_of_int_signed; assumption.
Qed.

Lemma ltb_infinity_l (y : float) : (infinity <? y)%float = false.
Proof.
  rewrite FloatAxioms.ltb_spec, Prim2SF_infinity. unfold SFltb.
  destruct (Prim2SF y) as [s|s| |s m e]; try reflexivity.
  destruct s; reflexivity.
Qed.

Lemma leb_infinity_l (x : float) : (infinity <=? x)%float = true -> x = infinity.
Proof.
  rewrite FloatAxioms.leb_spec, Prim2SF_infinity. unfold SFleb. intros H.
  apply eq_infinity.
  destruct (Prim2SF x) as [s|s| |s m e]; try discriminate.
  destruct s; [discriminate|reflexivity].
Qed.

(** An entry with value [+inf] puts [+inf] at the head of the sorted
    entries. *)
Lemma sort_desc_head_infinity (l : list (string * float)) :
  Forall (fun p => entry_notnan p = true) l ->
  (exists g, In (g, infinity) l) ->
  exists g rest, fold_right insert_desc [] l = (g, infinity) :: rest.
Proof.
  induction 1 as [|x l Hx Hl IH]; intros [g Hg]; [contradiction|].
  simpl fold_right. destruct Hg as [->|Hg].
  - destruct (fold_right insert_desc [] l) as [|y t]; simpl; [eauto|].
    rewrite ltb_infinity_l. eauto.
  - destruct IH as [g' [rest E]]; [eauto|]. rewrite E. simpl.
    destruct (snd x <? infinity)%float eqn:L; [eauto|].
    assert (snd x = infinity) as I.
    { apply leb_infinity_l, ltb_false_leb; [exact Hx|reflexivity|exact L]. }
    destruct x as [gx vx]. simpl in I. subst. eauto.
Qed.

Lemma sort_values_desc_head_infinity (s : list (string * float)) (g : string) :
  In (g, infinity) s ->
  exists g' rest, sort_values_desc s = (g', infinity) :: rest.
Proof.
  intros H. unfold sort_values_desc.
  destruct (sort_desc_head_infinity (filter (fun p => notnan (snd p)) s))
    as [g' [rest E]].
  - apply Forall_forall. intros p Hp. apply filter_In in Hp. apply Hp.
  - exists g. apply filter_In. split; [exact H|reflexivity].
  - rewrite E. simpl. eauto.
Qed.

Lemma region_values_class (df : list EnrollmentRecord) (y g : string) :
  Forall data_model_row df ->
  Forall (fun x => nonneg x \/ is_nan x = true)
         (region_values (shs_year (compute_shs df) y) g).
Proof.
  intros W. apply Forall_forall. intros x Hx.
  unfold region_values in Hx. apply in_map_iff in Hx.
  destruct Hx as [c [<- Hc]]. apply filter_In in Hc. destruct Hc as [Hc _].
  apply in_shs_year in Hc. destruct Hc as [Hc _].
  apply in_compute_shs in Hc. destruct Hc as [Hin [Hm ->]].
  apply shs_mask_true in Hm. rewrite Forall_forall in W.
  apply learners_per_infra_nonneg; [apply W; assumption|tauto].
Qed.

Lemma region_values_length (df : list EnrollmentRecord) (y g : string) :
  (List.length (region_values (shs_year (compute_shs df) y) g)
   <= List.length df)%nat.
Proof.
  unfold region_values, shs_year, compute_shs. rewrite length_map.
  eapply Nat.le_trans; [apply filter_length_le|].
  eapply Nat.le_trans; [apply filter_length_le|].
  rewrite length_map. apply filter_length_le.
Qed.

(** ** [region_year_ratio] *)

Lemma key_eqb_eq (a b : key) : key_eqb a b = true <-> a = b.
Proof.
  revert b. induction a as [|x a IH]; intros [|y b]; simpl;
    try (split; [discriminate|congruence]); [tauto|].
  rewrite andb_true_iff, String.eqb_eq, IH. split; [intros []|intros E];
    [congruence|inversion E; auto].
Qed.

Lemma in_present {A : Type} (l : list (option A)) (a : A) :
  In a (present l) <-> In (Some a) l.
Proof.
  induction l as [|[b|] l IH]; simpl; [tauto| |].
  - rewrite IH. split; intros [H|H]; auto; left; congruence.
  - rewrite IH. split; [auto|intros [H|H]; [discriminate|exact H]].
Qed.

Lemma in_group_keys_multi (l : list key) (k : key) :
  In k (group_keys_multi l) <-> In k l.
Proof.
  unfold group_keys_multi. rewrite <- (in_unique key_eqb key_eqb_eq l k).
  split; apply Permutation_in; [symmetry|]; apply KeySort.Permuted_sort.
Qed.

Lemma in_region_year_ratio (focus : list FocusRecord) (k : key) (m : float) :
  In (k, m) (region_year_ratio focus) <->
  In (Some k) (map focus_key focus)
  /\ m = mean (map (fun r => Learners_per_Infra (focus_row r))
                   (filter (fun r => has_key k (focus_key r)) focus)).
Proof.
  unfold region_year_ratio. rewrite in_map_iff. split.
  - intros [k' [E Hk]]. inversion E; subst.
    apply in_group_keys_multi, in_present in Hk. split; [exact Hk|reflexivity].
  - intros [Hk ->]. exists k. split; [reflexivity|].
    apply in_group_keys_multi, in_present, Hk.
Qed.

Lemma lookup_isin (d : list (string * string)) (k v : string) :
  lookup d k = Some v -> isin (keys d) k = true.
Proof.
  induction d as [|[k' v'] d IH]; simpl; [discriminate|].
  rewrite (String.eqb_sym k k').
  destruct (k' =? k)%string; [reflexivity|]. exact IH.
Qed.

Lemma in_shs_focus (shs : list CongestionRecord) (f : FocusRecord) :
  In f (shs_focus shs) -> In (focus_row f) shs.
Proof.
  unfold shs_focus. rewrite in_map_iff. intros [c [<- Hc]].
  apply filter_In in Hc. apply Hc.
Qed.

Lemma shs_focus_length (shs : list CongestionRecord) :
  (List.length (shs_focus shs) <= List.length shs)%nat.
Proof. unfold shs_focus. rewrite length_map. apply filter_length_le. Qed.

(** In the trend table too, the group of a focus region that has a zero
    infrastructure row gets the mean [+inf]. *)
Lemma region_year_ratio_infinity (df : list EnrollmentRecord)
    (r : EnrollmentRecord) (s : string) :
  In (mkCongestion r infinity) (compute_shs df) ->
  lookup focus_regions (Region r) = Some s ->
  Forall data_model_row df -> Z.of_nat (List.length df) <= int64_max ->
  In ([School_Year r; s], infinity) (region_year_ratio (shs_focus (compute_shs df))).
Proof.
  intros C L W N.
  assert (F : In (mkFocus (mkCongestion r infinity) (Some s))
                (shs_focus (compute_shs df))).
  { unfold shs_focus. apply in_map_iff. exists (mkCongestion r infinity).
    split.
    { change (region_of (mkCongestion r infinity)) with (Region r).
      rewrite L. reflexivity. }
    apply filter_In. split; [exact C|]. eapply lookup_isin, L. }
  apply in_region_year_ratio. split.
  - apply in_map_iff. eexists. split; [|exact F]. reflexivity.
  - symmetry. apply mean_infinity.
    + apply Forall_forall. intros x Hx. apply in_map_iff in Hx.
      destruct Hx as [f [<- Hf]]. apply filter_In in Hf. destruct Hf as [Hf _].
      apply in_shs_focus, in_compute_shs in Hf. destruct Hf as [Hin [Hm ->]].
      apply shs_mask_true in Hm. rewrite Forall_forall in W.
      apply learners_per_infra_nonneg; [apply W; assumption|tauto].
    + rewrite length_map.
      pose proof (filter_length_le
        (fun f => has_key [School_Year r; s] (focus_key f))
        (shs_focus (compute_shs df))).
      pose proof (shs_focus_length (compute_shs df)).
      assert (List.length (compute_shs df) <= List.length df)%nat.
      { unfold compute_shs. rewrite length_map. apply filter_length_le. }
      lia.
    + apply in_map_iff. eexists. split; [|apply filter_In; split; [exact F|]].
      * reflexivity.
      * simpl. rewrite !String.eqb_refl. reflexivity.
Qed.

(** C9: a Senior High School row of [df] whose Total Infrastructure is 0
    and whose Total Enrollment is a positive int64 is kept by [compute_shs]
    with Learners per Infra [+inf], and that value is among those averaged
    for its region in the ranking of its school year.  When the counts of
    [df] are non-negative int64 values, the mean of that region is [+inf],
    it stands at the head of the ranking, and so is the mean of the row's
    group in the trend table when the region is a focus region. *)
Theorem zero_infra_row_gives_infinity (df : list EnrollmentRecord)
    (r : EnrollmentRecord) :
  In r df -> Level r = "Senior High School"%string ->
  Total_Infrastructure r = Some 0 -> 0 < Total_Enrollment r <= int64_max ->
  In (mkCongestion r infinity) (compute_shs df)
  /\ In infinity
        (region_values (shs_year (compute_shs df) (School_Year r)) (Region r))
  /\ (Forall data_model_row df -> Z.of_nat (List.length df) <= int64_max ->
      In (Region r, infinity) (ranking (compute_shs df) (School_Year r))
      /\ (exists g rest,
            ranking (compute_shs df) (School_Year r) = (g, infinity) :: rest)
      /\ (forall s, lookup focus_regions (Region r) = Some s ->
            In ([School_Year r; s], infinity)
               (region_year_ratio (shs_focus (compute_shs df))))).
Proof.
  intros Hin Hl Hi He.
  assert (C : In (mkCongestion r infinity) (compute_shs df)).
  { apply in_compute_shs. simpl. split; [exact Hin|]. split.
    - apply shs_mask_true. rewrite Hi. split; [exact Hl|discriminate].
    - symmetry. apply learners_per_infra_zero; assumption. }
  assert (V : In infinity
                (region_values (shs_year (compute_shs df) (School_Year r))
                               (Region r))).
  { unfold region_values. apply in_map_iff.
    exists (mkCongestion r infinity). split; [reflexivity|].
    apply filter_In. split; [|apply String.eqb_refl].
    apply in_shs_year. split; [exact C|reflexivity]. }
  split; [exact C|]. split; [exact V|]. intros W N.
  assert (R : In (Region r, infinity)
                (region_means (shs_year (compute_shs df) (School_Year r)))).
  { apply in_region_means. split.
    - apply in_map_iff. exists (mkCongestion r infinity).
      split; [reflexivity|]. apply in_shs_year. split; [exact C|reflexivity].
    - symmetry. apply mean_infinity; [apply region_values_class, W| |exact V].
      pose proof (region_values_length df (School_Year r) (Region r)). lia. }
  split; [|split].
  - apply (Permutation_in _ (Permutation_sym (ranking_perm _ _))). exact R.
  - unfold ranking. eapply sort_values_desc_head_infinity, R.
  - intros s L. apply region_year_ratio_infinity; assumption.
Qed.

(** ** The ranking when no infrastructure count is zero *)

Lemma SFdiv_signed_finite (x : spec_float) (m : positive) (e : Z) :
  SF_signed false x ->
  SF_signed false (SFdiv prec emax x (S754_finite false m e)).
Proof.
  intros Hx.
  destruct (SFdiv_signed x (S754_finite false m e) Hx eq_refl) as [H|H];
    [exact H|].
  destruct x as [sx|sx| |sx mx ex]; simpl in *; try discriminate; try contradiction.
  subst. pose proof (SFdiv_core_binary_nonneg mx m ex e) as N.
  destruct (SFdiv_core_binary prec emax (Zpos mx) ex (Zpos m) e) as [[mz ez] lz].
  pose proof (binary_round_aux_signed false mz ez lz N) as S.
  simpl xorb in H. rewrite H in S. contradiction.
Qed.

Lemma nonneg_div_pos (x : float) (n : Z) :
  nonneg x -> 0 < n <= int64_max -> nonneg (x / float_of_int n)%float.
Proof.
  unfold nonneg. intros Hx Hn. rewrite FloatAxioms.div_spec.
  destruct (float_of_int_finite n Hn) as [m [e ->]].
  apply SFdiv_signed_finite, Hx.
Qed.

(** With a positive infrastructure count the ratio is a number. *)
Lemma learners_per_infra_pos (r : EnrollmentRecord) (z : Z) :
  0 <= Total_Enrollment r <= int64_max ->
  Total_Infrastructure r = Some z -> 0 < z <= int64_max ->
  nonneg (learners_per_infra r).
Proof.
  intros He Hi Hz. unfold learners_per_infra. rewrite Hi. simpl infra_value.
  apply nonneg_div_pos; [|exact Hz]. apply float_of_int_signed, He.
Qed.

Lemma mean_nonneg (l : list float) :
  l <> [] -> Forall nonneg l -> Z.of_nat (List.length l) <= int64_max ->
  nonneg (mean l).
Proof.
  intros Hne Hl Hn. unfold mean.
  assert (E : filter notnan l = l).
  { clear Hne Hn. induction Hl as [|x l Hx Hl IH]; simpl; [reflexivity|].
    rewrite (nonneg_notnan x Hx), IH. reflexivity. }
  rewrite E. destruct l as [|x l]; [congruence|].
  apply nonneg_div_pos.
  - apply fold_add_nonneg; [reflexivity|exact Hl].
  - simpl List.length in *. lia.
Qed.

Lemma region_values_nonneg (df : list EnrollmentRecord) (y g : string) :
  Forall positive_infra_row df ->
  Forall nonneg (region_values (shs_year (compute_shs df) y) g).
Proof.
  intros W. apply Forall_forall. intros x Hx.
  unfold region_values in Hx. apply in_map_iff in Hx.
  destruct Hx as [c [<- Hc]]. apply filter_In in Hc. destruct Hc as [Hc _].
  apply in_shs_year in Hc. destruct Hc as [Hc _].
  apply in_compute_shs in Hc. destruct Hc as [Hin [Hm ->]].
  apply shs_mask_true in Hm. rewrite Forall_forall in W.
  destruct (W _ Hin) as [He Hi].
  destruct (Total_Infrastructure (source c)) as [z|] eqn:T; [|tauto].
  apply (learners_per_infra_pos _ z); assumption.
Qed.

(** When every infrastructure count of [df] is positive, no mean is NaN and
    the ranking is in descending order throughout. *)
Lemma ranking_descending_when_infra_positive
    (df : list EnrollmentRecord) (y : string) :
  Forall positive_infra_row df -> Z.of_nat (List.length df) <= int64_max ->
  forall i p q,
    nth_error (ranking (compute_shs df) y) i = Some p ->
    nth_error (ranking (compute_shs df) y) (S i) = Some q ->
    (snd q <=? snd p)%float = true.
Proof.
  intros W N i p q Hp Hq.
  apply (sort_values_desc_adjacent _ i p q Hp Hq).
  apply nth_error_In in Hq.
  apply (Permutation_in _ (ranking_perm _ _)) in Hq.
  destruct q as [g m]. apply in_region_means in Hq. destruct Hq as [Hg ->].
  simpl snd.
  assert (M : nonneg (mean (region_values (shs_year (compute_shs df) y) g))).
  { apply mean_nonneg.
    - apply in_map_iff in Hg. destruct Hg as [c [Hc Hin]].
      unfold region_values. intros E. apply map_eq_nil in E.
      assert (I : In c (filter (fun r => (region_of r =? g)%string)
                          (shs_year (compute_shs df) y))).
      { apply filter_In. split; [exact Hin|]. apply String.eqb_eq, Hc. }
      rewrite E in I. exact I.
    - apply region_values_nonneg, W.
    - pose proof (region_values_length df y g). lia. }
  apply nonneg_notnan in M. unfold notnan in M.
  apply negb_true_iff in M. exact M.
Qed.

(** ** The properties on the example tables *)

Example scenario_values :
  map Learners_per_Infra (compute_shs scenario_table) = [100; 120]%float
  /\ nat_shs (compute_shs scenario_table)
     = [mkNational "2021" 1000 10; mkNational "2022" 1200 10].
Proof. split; vm_compute; reflexivity. Qed.

Example mixed_table_years : get_year_order mixed_table = ["2021"; "2022"]%string.
Proof. vm_compute. reflexivity. Qed.

Example mixed_table_ranking_2021 :
  ranking (compute_shs mixed_table) "2021" = [("B", infinity); ("A", 3.5%float)]%string.
Proof. vm_compute. reflexivity. Qed.

Example strip_header : strip "  Total Enrollment  " = "Total Enrollment"%string.
Proof. reflexivity. Qed.



Lemma ranking_empty_year_witness :
  ranking (compute_shs scenario_table) "2030" = []
  /\ forall tr, emit (plot_fig_rank (ranking (compute_shs scenario_table) "2030")) tr
                = (Value tt, tr ++ [plot_fig_rank []]).
Proof.
  apply (ranking_empty_year (compute_shs scenario_table) "2030").
  intros r H. vm_compute in H.
  destruct H as [<-|[<-|[]]]; vm_compute; discriminate.
Defined.

Lemma load_failure_stops_with_one_message_witness :
  load_data no_such_file (uploaded fresh_session) default_path
  = inl FileNotFoundError
  /\ appDataViz no_such_file fresh_session []
     = (Stopped,
        [sidebar_file_uploader;
         st_error
           "Error loading dataset. Check file name/path or upload the file."]).
Proof.
  apply (load_failure_stops_with_one_message no_such_file fresh_session
           FileNotFoundError).
  reflexivity.
Defined.

Lemma compute_shs_object_leaves_input_witness :
  exists (shs : ref) (h' : heap) (out : frame),
    compute_shs_object 0%nat [raw_frame scenario_table] = Some (shs, h')
    /\ shs <> 0%nat
    /\ nth_error [raw_frame scenario_table] shs = None
    /\ (forall l f, nth_error [raw_frame scenario_table] l = Some f ->
                    nth_error h' l = Some f)
    /\ nth_error h' 0%nat = Some (raw_frame scenario_table)
    /\ nth_error h' shs = Some out
    /\ frame_columns out
       = frame_columns (raw_frame scenario_table) ++ ["Learners per Infra"%string]
    /\ congestion_rows out = Some (compute_shs scenario_table).
Proof.
  apply (compute_shs_object_leaves_input [raw_frame scenario_table] 0%nat
           scenario_table).
  reflexivity.
Defined.

Lemma zero_infra_row_gives_infinity_witness :
  In (mkCongestion zero_infra_row infinity) (compute_shs mixed_table)
  /\ In infinity (region_values (shs_year (compute_shs mixed_table) "2021") "B")
  /\ In ("B"%string, infinity) (ranking (compute_shs mixed_table) "2021")
  /\ (exists g rest,
        ranking (compute_shs mixed_table) "2021" = (g, infinity) :: rest).
Proof.
  destruct (zero_infra_row_gives_infinity mixed_table zero_infra_row)
    as [K [V R]].
  - simpl. auto.
  - reflexivity.
  - reflexivity.
  - unfold int64_max. simpl. lia.
  - destruct R as [R [H _]].
    + unfold mixed_table, zero_infra_row, data_model_row, int64_max.
      repeat constructor; simpl; lia.
    + unfold int64_max. simpl. lia.
    + repeat split; assumption.
Defined.

(** * Further properties of the script *)

(** ** [load_data]: the headers *)











(** ** The year controls *)

Lemma le_str_refl (a : string) : le_str a a.
Proof. apply string_leb_iff. right. reflexivity. Qed.

Lemma nth_error_last_index (l : list string) (d : string) :
  l <> [] -> nth_error l (List.length l - 1) = Some (last l d).
Proof.
  induction l as [|x l IH]; [congruence|]. intros _.
  destruct l as [|y l]; [reflexivity|].
  change (last (x :: y :: l) d) with (last (y :: l) d).
  rewrite <- IH by discriminate. simpl List.length.
  replace (S (S (List.length l)) - 1)%nat with (S (S (List.length l) - 1)) by lia.
  reflexivity.
Qed.

Lemma sorted_le_last (l : list string) (d : string) :
  StronglySorted le_str l -> forall y, In y l -> le_str y (last l d).
Proof.
  induction 1 as [|x l Hs IH Hx]; intros y Hy; [contradiction|].
  destruct l as [|z l].
  - destruct Hy as [->|[]]. apply le_str_refl.
  - change (last (x :: z :: l) d) with (last (z :: l) d).
    destruct Hy as [->|Hy]; [|apply IH, Hy].
    rewrite Forall_forall in Hx.
    unfold le_str. apply string_leb_trans with z.
    + apply Hx. left. reflexivity.
    + apply IH. left. reflexivity.
Qed.

Lemma sorted_head_le (x : string) (l : list string) :
  StronglySorted le_str (x :: l) -> forall y, In y (x :: l) -> le_str x y.
Proof.
  intros H y [->|Hy]; [apply le_str_refl|].
  apply StronglySorted_inv in H. destruct H as [_ H].
  rewrite Forall_forall in H. apply H, Hy.
Qed.

(** In a list without duplicates, [index] finds an entry where it is. *)
Lemma index_from_nodup (l : list string) :
  NoDup l -> forall i x k, nth_error l i = Some x ->
    index_from l x k = Some (k + i)%nat.
Proof.
  induction 1 as [|y l Hy N IH]; intros i x k E; [destruct i; discriminate|].
  destruct i as [|i]; simpl in *.
  - inversion E; subst. rewrite String.eqb_refl. f_equal. lia.
  - destruct (String.eqb_spec y x) as [->|_].
    + exfalso. apply Hy. eapply nth_error_In, E.
    + rewrite (IH i x (S k) E). f_equal. lia.
Qed.

Lemma NoDup_get_year_order (rs : list EnrollmentRecord) : NoDup (get_year_order rs).
Proof. apply NoDup_sorted, NoDup_unique, String.eqb_eq. Qed.

(** What the three statements after loading compute on a table with rows. *)
Lemma year_controls_run (rs : list EnrollmentRecord) :
  rs <> [] ->
  exists ymin ymax,
    getitem (get_year_order rs) 0 = ret ymin
    /\ getitem_last (get_year_order rs) = ret ymax
    /\ list_index (get_year_order rs) ymax
       = ret (List.length (get_year_order rs) - 1)%nat
    /\ nth_error (get_year_order rs) 0 = Some ymin
    /\ nth_error (get_year_order rs) (List.length (get_year_order rs) - 1)
       = Some ymax
    /\ forall y, In y (get_year_order rs) -> le_str ymin y /\ le_str y ymax.
Proof.
  intros H.
  pose proof (sorted_strongly (unique String.eqb (map School_Year rs))) as S.
  pose proof (NoDup_get_year_order rs) as N.
  fold (get_year_order rs) in S.
  destruct (get_year_order rs) as [|y0 ys] eqn:Y.
  { apply get_year_order_nil in Y. contradiction. }
  pose proof (nth_error_last_index (y0 :: ys) y0 ltac:(discriminate)) as E.
  exists y0, (last (y0 :: ys) y0).
  split; [reflexivity|]. split.
  - unfold getitem_last, getitem. rewrite E. reflexivity.
  - split.
    + unfold list_index. rewrite (index_from_nodup _ N _ _ 0%nat E). reflexivity.
    + split; [reflexivity|]. split; [exact E|]. intros y Hy. split.
      * apply (sorted_head_le y0 ys S y Hy).
      * apply sorted_le_last; assumption.
Qed.

(** X2: on a table with rows, [years[0]] is the least School Year,
    [years[-1]] the greatest, and [years.index(max_year)] the last
    position, so that the ranking opens on the greatest year. *)
Theorem year_controls_least_and_greatest (rs : list EnrollmentRecord) :
  rs <> [] ->
  exists min_year max_year,
    getitem (get_year_order rs) 0 = ret min_year
    /\ getitem_last (get_year_order rs) = ret max_year
    /\ list_index (get_year_order rs) max_year
       = ret (List.length (get_year_order rs) - 1)%nat
    /\ selection (get_year_order rs) (List.length (get_year_order rs) - 1) None
       = Some max_year
    /\ (forall r, In r rs ->
          le_str min_year (School_Year r) /\ le_str (School_Year r) max_year)
    /\ (exists r, In r rs /\ School_Year r = min_year)
    /\ (exists r, In r rs /\ School_Year r = max_year).
Proof.
  intros H. destruct (year_controls_run rs H) as [a [b [G0 [G1 [G2 [N0 [N1 B]]]]]]].
  exists a, b. repeat (split; [assumption|]).
  split; [|split].
  - intros r Hr. apply B. apply in_get_year_order. eauto.
  - apply in_get_year_order. eapply nth_error_In, N0.
  - apply in_get_year_order. eapply nth_error_In, N1.
Qed.

Lemma year_controls_least_and_greatest_witness :
  exists min_year max_year,
    getitem (get_year_order mixed_table) 0 = ret min_year
    /\ getitem_last (get_year_order mixed_table) = ret max_year
    /\ list_index (get_year_order mixed_table) max_year
       = ret (List.length (get_year_order mixed_table) - 1)%nat
    /\ selection (get_year_order mixed_table)
                 (List.length (get_year_order mixed_table) - 1) None
       = Some max_year
    /\ (forall r, In r mixed_table ->
          le_str min_year (School_Year r) /\ le_str (School_Year r) max_year)
    /\ (exists r, In r mixed_table /\ School_Year r = min_year)
    /\ (exists r, In r mixed_table /\ School_Year r = max_year).
Proof.
  apply (year_controls_least_and_greatest mixed_table). discriminate.
Defined.

(** ** A complete run *)





(** ** [nat_shs]: the rows *)

Lemma wrap64_range (z : Z) : int64 (wrap64 z).
Proof.
  unfold int64, int64_min, int64_max, wrap64.
  pose proof (Z.mod_pos_bound (z + 2 ^ 63) (2 ^ 64) ltac:(lia)). lia.
Qed.

Lemma years_nat_shs (shs : list CongestionRecord) :
  map nat_School_Year (nat_shs shs) = group_keys (map year_of shs).
Proof. unfold nat_shs. rewrite map_map. apply map_id. Qed.

(** X4: the national table of a loaded table has one row per School Year
    that has a Senior High School row with an infrastructure count, in
    ascending order of the year; every such year is one of the years the
    select boxes offer; and the enrollment of a row is the int64 sum of
    that year's enrollments, the exact sum when that fits in int64. *)
Theorem nat_shs_one_row_per_year (df : list EnrollmentRecord) :
  NoDup (map nat_School_Year (nat_shs (compute_shs df)))
  /\ StronglySorted le_str (map nat_School_Year (nat_shs (compute_shs df)))
  /\ (forall y, In y (map nat_School_Year (nat_shs (compute_shs df))) <->
        exists r, In r df /\ School_Year r = y
                  /\ Level r = "Senior High School"%string
                  /\ Total_Infrastructure r <> None)
  /\ (forall y, In y (map nat_School_Year (nat_shs (compute_shs df))) ->
        In y (get_year_order df))
  /\ (forall n, In n (nat_shs (compute_shs df)) ->
        let total := group_total year_of enrollment_of (compute_shs df)
                                 (nat_School_Year n) in
        int64 (total_enrollment n)
        /\ total_enrollment n = wrap64 total
        /\ (int64 total -> total_enrollment n = total)).
Proof.
  assert (M : forall y, In y (map nat_School_Year (nat_shs (compute_shs df))) <->
                exists r, In r df /\ School_Year r = y
                          /\ Level r = "Senior High School"%string
                          /\ Total_Infrastructure r <> None).
  { intros y. rewrite years_nat_shs, in_group_keys, in_map_iff. split.
    - intros [c [E Hc]]. apply in_compute_shs in Hc. destruct Hc as [Hin [Hm _]].
      apply shs_mask_true in Hm. exists (source c). tauto.
    - intros [r [Hin [E [Hl Hi]]]]. exists (mkCongestion r (learners_per_infra r)).
      split; [exact E|]. apply in_compute_shs. simpl.
      split; [exact Hin|]. split; [|reflexivity]. apply shs_mask_true. tauto. }
  split; [|split; [|split; [exact M|split]]].
  - rewrite years_nat_shs. apply NoDup_group_keys.
  - rewrite years_nat_shs. apply sorted_strongly.
  - intros y Hy. apply M in Hy. destruct Hy as [r [Hin [E _]]].
    apply in_get_year_order. eauto.
  - intros n Hn total.
    assert (E : total_enrollment n = wrap64 total).
    { unfold nat_shs in Hn. apply in_map_iff in Hn. destruct Hn as [y [<- _]].
      simpl. apply sum_int64_Zsum. }
    rewrite E. split; [apply wrap64_range|]. split; [reflexivity|].
    apply wrap64_small.
Qed.

(** ** Groups under a composite key *)

Lemma string_compare_refl (a : string) : String.compare a a = Eq.
Proof.
  pose proof (String.compare_antisym a a) as E.
  destruct (String.compare a a); simpl in E; congruence.
Qed.

Lemma key_leb_trans (a : key) :
  forall b c, key_leb a b = true -> key_leb b c = true -> key_leb a c = true.
Proof.
  induction a as [|x a IH]; intros [|y b] [|z c]; simpl; try congruence.
  destruct (String.compare x y) eqn:Hxy; try discriminate;
    destruct (String.compare y z) eqn:Hyz; try discriminate; intros H1 H2.
  - apply String.compare_eq_iff in Hxy, Hyz. subst.
    rewrite string_compare_refl. eauto.
  - apply String.compare_eq_iff in Hxy. subst. rewrite Hyz. reflexivity.
  - apply String.compare_eq_iff in Hyz. subst. rewrite Hxy. reflexivity.
  - rewrite (string_compare_lt_trans x y z Hxy Hyz). reflexivity.
Qed.

Lemma group_keys_multi_sorted (l : list key) :
  StronglySorted le_key (group_keys_multi l).
Proof.
  apply KeySort.StronglySorted_sort. intros a b c. apply key_leb_trans.
Qed.

Lemma NoDup_group_keys_multi (l : list key) : NoDup (group_keys_multi l).
Proof.
  eapply Permutation_NoDup; [apply KeySort.Permuted_sort|].
  apply NoDup_unique, key_eqb_eq.
Qed.

Section KeyGroups.
Context {R : Type} (key_of : R -> key) (f : R -> Z).

Lemma Zsum_key_indicator (ks : list key) (a : key) (v : Z) :
  NoDup ks -> In a ks ->
  Zsum (map (fun k => if key_eqb a k then v else 0) ks) = v.
Proof.
  induction 1 as [|k ks Hk N IH]; simpl; [tauto|].
  destruct (key_eqb a k) eqn:E.
  - apply key_eqb_eq in E. subst k. intros _.
    assert (Z0 : Zsum (map (fun k => if key_eqb a k then v else 0) ks) = 0).
    { clear IH N. induction ks as [|k ks IH]; simpl; [reflexivity|].
      destruct (key_eqb a k) eqn:E.
      - apply key_eqb_eq in E. subst k. exfalso. apply Hk. left. reflexivity.
      - rewrite IH; [reflexivity|]. intros H. apply Hk. right. exact H. }
    rewrite Z0. ring.
  - intros [->|Ha].
    + rewrite (proj2 (key_eqb_eq a a) eq_refl) in E. discriminate.
    + rewrite IH by assumption. ring.
Qed.

Lemma Zsum_key_groups (ks : list key) (rows : list R) :
  NoDup ks -> (forall r, In r rows -> In (key_of r) ks) ->
  Zsum (map (fun k => Zsum (map f (filter (fun r => key_eqb (key_of r) k) rows))) ks)
  = Zsum (map f rows).
Proof.
  intros N. induction rows as [|r rows IH]; intros C.
  - clear N C. simpl. induction ks; simpl; auto.
  - rewrite (map_ext _
               (fun k => (if key_eqb (key_of r) k then f r else 0)
                         + Zsum (map f (filter (fun r => key_eqb (key_of r) k) rows)))).
    + rewrite Zsum_map_add, Zsum_key_indicator, IH; simpl; auto;
        [intros r0 H0|]; apply C; simpl; auto.
    + intros k. simpl. destruct (key_eqb (key_of r) k); simpl; ring.
Qed.

End KeyGroups.

(** ** [sector_summary] *)

Lemma isin_true (l : list string) (x : string) : isin l x = true <-> In x l.
Proof.
  unfold isin. rewrite existsb_exists. split.
  - intros [y [Hy E]]. apply String.eqb_eq in E. subst. exact Hy.
  - intros H. exists x. split; [exact H|apply String.eqb_refl].
Qed.

Lemma isin_lookup (d : list (string * string)) (k : string) :
  isin (keys d) k = true -> exists v, lookup d k = Some v.
Proof.
  induction d as [|[k' v'] d IH]; simpl; [discriminate|].
  rewrite (String.eqb_sym k k').
  destruct (k' =? k)%string; simpl; eauto.
Qed.

Lemma in_shs_sector (shs : list CongestionRecord) (cy : list string)
    (r : CongestionRecord) :
  In r (shs_sector shs cy) <->
  In r shs /\ In (region_of r) (keys focus_regions) /\ In (year_of r) cy
  /\ (sector_of r = "PUBLIC" \/ sector_of r = "PRIVATE")%string.
Proof.
  unfold shs_sector. rewrite filter_In, !andb_true_iff, !isin_true.
  simpl In. intuition.
Qed.

Lemma keys_sector_summary (sec : list CongestionRecord) :
  map sector_group (sector_summary sec) = group_keys_multi (map sector_key sec).
Proof. unfold sector_summary. rewrite map_map. apply map_id. Qed.

(** X5: the enrollments of the sector table add up, as int64 sums, to the
    enrollment of the rows it was grouped from. *)
Theorem sector_summary_conserves_total_enrollment (sec : list CongestionRecord) :
  sum_int64 (map sector_Total_Enrollment (sector_summary sec))
  = sum_int64 (map enrollment_of sec).
Proof.
  rewrite !sum_int64_Zsum. unfold sector_summary. rewrite map_map. simpl.
  rewrite (map_ext _ (fun k => wrap64 (Zsum (map enrollment_of
             (filter (fun r => key_eqb (sector_key r) k) sec)))))
    by (intros k; apply sum_int64_Zsum).
  rewrite <- (map_map (fun k => Zsum (map enrollment_of
             (filter (fun r => key_eqb (sector_key r) k) sec))) wrap64).
  rewrite wrap64_Zsum_map. f_equal. apply Zsum_key_groups.
  - apply NoDup_group_keys_multi.
  - intros r Hr. apply in_group_keys_multi, in_map, Hr.
Qed.

(** X6: the sector table of two picked years has one row per (Region,
    School Year, Sector) that occurs among the rows of a focus region, of
    one of the two years and of sector PUBLIC or PRIVATE, in ascending order
    of that key; its Region Short is never missing; and it does not depend
    on which of the two years was picked first. *)
Theorem sector_summary_rows (shs : list CongestionRecord) (year_a year_b : string) :
  let summary := sector_summary (shs_sector shs [year_a; year_b]) in
  NoDup (map sector_group summary)
  /\ StronglySorted le_key (map sector_group summary)
  /\ (forall k, In k (map sector_group summary) <->
        exists r, In r shs /\ k = [region_of r; year_of r; sector_of r]
                  /\ In (region_of r) (keys focus_regions)
                  /\ (year_of r = year_a \/ year_of r = year_b)
                  /\ (sector_of r = "PUBLIC" \/ sector_of r = "PRIVATE")%string)
  /\ (forall row, In row summary ->
        exists g y s label,
          sector_group row = [g; y; s]
          /\ lookup focus_regions g = Some label
          /\ sector_Region_Short row = Some label)
  /\ sector_summary (shs_sector shs [year_b; year_a]) = summary.
Proof.
  intros summary.
  assert (M : forall k, In k (map sector_group summary) <->
        exists r, In r shs /\ k = [region_of r; year_of r; sector_of r]
                  /\ In (region_of r) (keys focus_regions)
                  /\ (year_of r = year_a \/ year_of r = year_b)
                  /\ (sector_of r = "PUBLIC" \/ sector_of r = "PRIVATE")%string).
  { intros k. unfold summary.
    rewrite keys_sector_summary, in_group_keys_multi, in_map_iff. split.
    - intros [r [E Hr]]. apply in_shs_sector in Hr.
      destruct Hr as [H1 [H2 [H3 H4]]]. exists r.
      split; [exact H1|]. split; [symmetry; exact E|]. split; [exact H2|].
      split; [|exact H4]. destruct H3 as [H3|[H3|[]]]; auto.
    - intros [r [Hr [E [H2 [H3 H4]]]]]. exists r. split; [symmetry; exact E|].
      apply in_shs_sector. split; [exact Hr|]. split; [exact H2|].
      split; [|exact H4]. destruct H3 as [H3|H3]; simpl; auto. }
  split; [|split; [|split; [exact M|split]]].
  - unfold summary. rewrite keys_sector_summary. apply NoDup_group_keys_multi.
  - unfold summary. rewrite keys_sector_summary. apply group_keys_multi_sorted.
  - intros row Hrow.
    assert (K : In (sector_group row) (map sector_group summary))
      by (apply in_map; exact Hrow).
    apply M in K. destruct K as [r [_ [E [Hg _]]]].
    apply isin_true, isin_lookup in Hg. destruct Hg as [label Hl].
    exists (region_of r), (year_of r), (sector_of r), label.
    split; [exact E|]. split; [exact Hl|].
    unfold summary, sector_summary in Hrow. apply in_map_iff in Hrow.
    destruct Hrow as [k [<- _]]. simpl in *. subst k. exact Hl.
  - unfold summary. f_equal. unfold shs_sector. apply filter_ext. intros r.
    f_equal. f_equal. unfold isin. simpl. rewrite !orb_false_r. apply orb_comm.
Qed.

(** ** [shs_focus] and [region_year_ratio] *)

Lemma lookup_none_isin (d : list (string * string)) (k : string) :
  lookup d k = None -> isin (keys d) k = false.
Proof.
  induction d as [|[k' v'] d IH]; simpl; [reflexivity|].
  rewrite (String.eqb_sym k k').
  destruct (k' =? k)%string; simpl; [discriminate|exact IH].
Qed.

Lemma shs_focus_cons (r : CongestionRecord) (shs : list CongestionRecord) :
  shs_focus (r :: shs)
  = if isin (keys focus_regions) (region_of r)
    then mkFocus r (lookup focus_regions (region_of r)) :: shs_focus shs
    else shs_focus shs.
Proof.
  unfold shs_focus. cbn [filter].
  destruct (isin (keys focus_regions) (region_of r)); reflexivity.
Qed.

Lemma trend_group_values (shs : list CongestionRecord) (y s : string) :
  map (fun f => Learners_per_Infra (focus_row f))
      (filter (fun f => has_key [y; s] (focus_key f)) (shs_focus shs))
  = map Learners_per_Infra (filter (in_trend_group y s) shs).
Proof.
  induction shs as [|r shs IH]; [reflexivity|].
  rewrite shs_focus_cons. cbn [filter]. unfold in_trend_group at 1.
  destruct (lookup focus_regions (region_of r)) as [s'|] eqn:L.
  - rewrite (lookup_isin _ _ _ L). cbn [filter].
    unfold focus_key at 1. cbn [Region_Short focus_row has_key key_eqb].
    rewrite andb_true_r.
    destruct ((year_of r =? y)%string && (s' =? s)%string); cbn [map];
      rewrite IH; reflexivity.
  - rewrite (lookup_none_isin _ _ L). exact IH.
Qed.

Lemma in_focus_keys (shs : list CongestionRecord) (k : key) :
  In (Some k) (map focus_key (shs_focus shs)) <->
  exists r s, In r shs /\ lookup focus_regions (region_of r) = Some s
              /\ k = [year_of r; s].
Proof.
  unfold shs_focus. rewrite map_map, in_map_iff. unfold focus_key.
  cbn [Region_Short focus_row]. split.
  - intros [r [E Hr]]. apply filter_In in Hr. destruct Hr as [Hr _].
    destruct (lookup focus_regions (region_of r)) as [s|] eqn:L; [|discriminate].
    inversion E. exists r, s. auto.
  - intros [r [s [Hr [L ->]]]]. exists r. rewrite L. split; [reflexivity|].
    apply filter_In. split; [exact Hr|]. eapply lookup_isin, L.
Qed.



(** ** [compute_shs] on a table that has added columns *)

Lemma lookup_set_column_same (name : string) (vals : list float)
    (cs : list (string * list float)) :
  lookup_column name (set_column name vals cs) = Some vals.
Proof.
  induction cs as [|c cs IH]; simpl; [rewrite String.eqb_refl; reflexivity|].
  destruct (fst c =? name)%string eqn:E; simpl.
  - rewrite String.eqb_refl. reflexivity.
  - rewrite E. exact IH.
Qed.

Lemma lookup_set_column_other (name other : string) (vals : list float)
    (cs : list (string * list float)) :
  other <> name ->
  lookup_column other (set_column name vals cs) = lookup_column other cs.
Proof.
  intros N. apply String.eqb_neq in N. rewrite String.eqb_sym in N.
  induction cs as [|c cs IH]; simpl; [rewrite N; reflexivity|].
  destruct (fst c =? name)%string eqn:E; simpl.
  - apply String.eqb_eq in E. rewrite E, N. reflexivity.
  - rewrite IH. reflexivity.
Qed.

Lemma names_set_column (name : string) (vals : list float)
    (cs : list (string * list float)) :
  map fst (set_column name vals cs)
  = if has_column name cs then map fst cs else map fst cs ++ [name].
Proof.
  unfold has_column. induction cs as [|c cs IH]; simpl; [reflexivity|].
  destruct (fst c =? name)%string eqn:E; simpl.
  - apply String.eqb_eq in E. rewrite E. reflexivity.
  - rewrite IH. destruct (existsb _ cs); reflexivity.
Qed.

Lemma lookup_column_select (mask : list bool) (name : string)
    (cs : list (string * list float)) :
  lookup_column name (map (fun c => (fst c, select mask (snd c))) cs)
  = option_map (select mask) (lookup_column name cs).
Proof.
  induction cs as [|c cs IH]; simpl; [reflexivity|].
  destruct (fst c =? name)%string; [reflexivity|exact IH].
Qed.

Lemma has_column_select (mask : list bool) (name : string)
    (cs : list (string * list float)) :
  has_column name (map (fun c => (fst c, select mask (snd c))) cs)
  = has_column name cs.
Proof.
  unfold has_column. induction cs as [|c cs IH]; simpl; [reflexivity|].
  rewrite IH. reflexivity.
Qed.

(** The run of [compute_shs] on any table of the heap. *)
Lemma compute_shs_object_run_any (h : heap) (df : ref) (f : frame) :
  nth_error h df = Some f ->
  let mask := map shs_mask (frame_rows f) in
  let selected :=
    mkFrame (filter shs_mask (frame_rows f))
            (map (fun c => (fst c, select mask (snd c))) (frame_added f)) in
  compute_shs_object df h
  = Some (S (List.length h),
          h ++ [selected;
                mkFrame (frame_rows selected)
                        (set_column "Learners per Infra"
                           (map learners_per_infra (frame_rows selected))
                           (frame_added selected))]).
Proof.
  intros H mask selected. unfold compute_shs_object.
  rewrite (op_bind_some _ _ _ _ _ (deref_some _ _ _ H)).
  rewrite (op_bind_some _ _ _ _ _ (getitem_mask_run _ _ _ _ H)).
  rewrite select_map_filter. fold mask. fold selected.
  rewrite (op_bind_some _ _ _ _ _ (copy_last _ _)).
  assert (L : S (List.length h) = List.length (h ++ [selected]))
    by (rewrite length_app, Nat.add_comm; reflexivity).
  rewrite L.
  rewrite (op_bind_some _ _ _ _ _ (deref_some _ _ _ (nth_error_last _ selected))).
  rewrite (op_bind_some _ _ _ _ _ (setitem_last _ _ _ _)).
  unfold op_ret. rewrite <- app_assoc. reflexivity.
Qed.

(** X8: whatever columns the table [df] refers to already has,
    [compute_shs] returns a new object and changes no existing one; the
    result has the selected rows, its Learners per Infra column holds their
    ratios, every other added column holds its selected entries, and the
    column names are those of the input, with Learners per Infra added at
    the end only when the input has no column of that name. *)
Theorem compute_shs_object_any_frame (h : heap) (df : ref) (f : frame) :
  nth_error h df = Some f ->
  exists (shs : ref) (h' : heap) (out : frame),
    compute_shs_object df h = Some (shs, h')
    /\ nth_error h shs = None
    /\ (forall l g, nth_error h l = Some g -> nth_error h' l = Some g)
    /\ nth_error h' shs = Some out
    /\ frame_rows out = filter shs_mask (frame_rows f)
    /\ lookup_column "Learners per Infra" (frame_added out)
       = Some (map learners_per_infra (filter shs_mask (frame_rows f)))
    /\ (forall name, name <> "Learners per Infra"%string ->
          lookup_column name (frame_added out)
          = option_map (select (map shs_mask (frame_rows f)))
                       (lookup_column name (frame_added f)))
    /\ frame_columns out
       = if has_column "Learners per Infra" (frame_added f)
         then frame_columns f
         else frame_columns f ++ ["Learners per Infra"%string].
Proof.
  intros H. eexists _, _, _.
  split; [apply (compute_shs_object_run_any h df f H)|].
  split; [apply nth_error_None; lia|]. split.
  { intros l g Hl. rewrite nth_error_app1; [assumption|].
    apply nth_error_Some. congruence. }
  split.
  { rewrite nth_error_app2 by lia.
    replace (S (List.length h) - List.length h)%nat with 1%nat by lia.
    reflexivity. }
  split; [reflexivity|]. split; [apply lookup_set_column_same|]. split.
  - intros name N. simpl frame_added.
    rewrite lookup_set_column_other by assumption. apply lookup_column_select.
  - unfold frame_columns. simpl frame_added.
    rewrite names_set_column, has_column_select.
    destruct (has_column "Learners per Infra" (frame_added f)).
    + rewrite map_map. reflexivity.
    + rewrite map_map, app_assoc. reflexivity.
Qed.

Lemma compute_shs_object_any_frame_witness :
  exists (shs : ref) (h' : heap) (out : frame),
    compute_shs_object 0%nat
      [mkFrame scenario_table [("Learners per Infra"%string, [0; 0]%float)]]
    = Some (shs, h')
    /\ nth_error
         [mkFrame scenario_table [("Learners per Infra"%string, [0; 0]%float)]]
         shs = None
    /\ (forall l g,
          nth_error
            [mkFrame scenario_table [("Learners per Infra"%string, [0; 0]%float)]]
            l = Some g -> nth_error h' l = Some g)
    /\ nth_error h' shs = Some out
    /\ frame_rows out = filter shs_mask scenario_table
    /\ lookup_column "Learners per Infra" (frame_added out)
       = Some (map learners_per_infra (filter shs_mask scenario_table))
    /\ (forall name, name <> "Learners per Infra"%string ->
          lookup_column name (frame_added out)
          = option_map (select (map shs_mask scenario_table))
              (lookup_column name [("Learners per Infra"%string, [0; 0]%float)]))
    /\ frame_columns out = base_columns ++ ["Learners per Infra"%string].
Proof.
  apply (compute_shs_object_any_frame
           [mkFrame scenario_table [("Learners per Infra"%string, [0; 0]%float)]]
           0%nat
           (mkFrame scenario_table [("Learners per Infra"%string, [0; 0]%float)])).
  reflexivity.
Defined.

(** ** The trend table and the ranking agree *)

(** No two focus regions share a short name. *)
Lemma focus_regions_injective (g g' s : string) :
  lookup focus_regions g = Some s -> lookup focus_regions g' = Some s -> g = g'.
Proof.
  unfold focus_regions. cbn [lookup].
  repeat match goal with
         | |- context [String.eqb ?a g] =>
             destruct (String.eqb_spec a g); [subst g|]
         end;
    try discriminate;
    intros E; inversion E; subst s; clear E;
    repeat match goal with
           | |- context [String.eqb ?a g'] =>
               destruct (String.eqb_spec a g'); [subst g'|]
           end;
    intros E; try discriminate; reflexivity.
Qed.

Lemma in_trend_group_region (g s y : string) (r : CongestionRecord) :
  lookup focus_regions g = Some s ->
  in_trend_group y s r = (year_of r =? y)%string && (region_of r =? g)%string.
Proof.
  intros L. unfold in_trend_group.
  destruct (lookup focus_regions (region_of r)) as [s'|] eqn:L'.
  - destruct (String.eqb_spec s' s) as [->|N].
    + rewrite (focus_regions_injective _ _ _ L' L), String.eqb_refl. reflexivity.
    + destruct (String.eqb_spec (region_of r) g) as [E|_].
      * rewrite E in L'. congruence.
      * reflexivity.
  - destruct (String.eqb_spec (region_of r) g) as [E|_].
    + rewrite E in L'. congruence.
    + rewrite andb_false_r. reflexivity.
Qed.

Lemma filter_filter_andb {A : Type} (p q : A -> bool) (l : list A) :
  filter q (filter p l) = filter (fun x => p x && q x) l.
Proof.
  induction l as [|x l IH]; simpl; [reflexivity|].
  destruct (p x); simpl; [destruct (q x)|]; rewrite IH; reflexivity.
Qed.

Lemma region_values_trend_group (shs : list CongestionRecord) (g s y : string) :
  lookup focus_regions g = Some s ->
  region_values (shs_year shs y) g
  = map Learners_per_Infra (filter (in_trend_group y s) shs).
Proof.
  intros L. unfold region_values, shs_year. rewrite filter_filter_andb.
  f_equal. apply filter_ext. intros r. symmetry.
  apply in_trend_group_region, L.
Qed.

(** X9: for a focus region, the ranking of a year and the trend table show
    the same mean: the region is ranked with a mean for that year exactly
    when the trend table has that mean for the year and the region's short
    name. *)
Theorem ranking_agrees_with_trend (shs : list CongestionRecord) (y g s : string)
    (m : float) :
  lookup focus_regions g = Some s ->
  In (g, m) (ranking shs y)
  <-> In ([y; s], m) (region_year_ratio (shs_focus shs)).
Proof.
  intros L. split.
  - intros H. apply (Permutation_in _ (ranking_perm shs y)) in H.
    apply in_region_means in H. destruct H as [Hg ->].
    apply in_map_iff in Hg. destruct Hg as [r [E Hr]].
    apply in_shs_year in Hr. destruct Hr as [Hr Hy].
    apply in_region_year_ratio. split.
    + apply in_focus_keys. exists r, s. rewrite E, Hy. auto.
    + rewrite trend_group_values. f_equal.
      apply region_values_trend_group, L.
  - intros H. apply in_region_year_ratio in H. destruct H as [Hk ->].
    apply in_focus_keys in Hk. destruct Hk as [r [s' [Hr [L' E]]]].
    inversion E; subst.
    assert (G : region_of r = g) by (eapply focus_regions_injective; eauto).
    apply (Permutation_in _ (Permutation_sym (ranking_perm shs (year_of r)))).
    apply in_region_means. split.
    + apply in_map_iff. exists r. split; [exact G|].
      apply in_shs_year. auto.
    + rewrite trend_group_values. f_equal. symmetry.
      apply region_values_trend_group, L.
Qed.

Lemma ranking_agrees_with_trend_witness :
  In ("NCR - National Capital Region"%string, 120%float)
     (ranking (compute_shs
                 [mkRecord "2022" "NCR - National Capital Region"
                           "Senior High School" "PUBLIC" 1200 (Some 10)])
              "2022")
  <-> In (["2022"; "NCR"]%string, 120%float)
         (region_year_ratio
            (shs_focus
               (compute_shs
                  [mkRecord "2022" "NCR - National Capital Region"
                            "Senior High School" "PUBLIC" 1200 (Some 10)]))).
Proof.
  apply (ranking_agrees_with_trend
           (compute_shs
              [mkRecord "2022" "NCR - National Capital Region"
                        "Senior High School" "PUBLIC" 1200 (Some 10)])
           "2022" "NCR - National Capital Region" "NCR" 120%float).
  reflexivity.
Defined.
